(** * ESP32-APOD: the image preprocessing script [src/preprocess.py]

    The script fetches the metadata of NASA's picture of the day, picks the
    asset URL by media type, downloads the asset, computes a target size for
    the 320x240 screen, resizes and saves a baseline JPEG.

    Python's [float] is IEEE 754 binary64.  The arithmetic of the scaler,
    [int((scaled_width / image_width) * image_height)], is embedded over the
    executable binary64 specification of the Standard Library ([SpecFloat]),
    so that every rounding of the interpreter is a rounding of the model. *)

From Stdlib Require Import ZArith Lia Floats.SpecFloat DecimalString Strings.Byte.
From stdpp Require Import base strings gmap.

Local Open Scope Z_scope.

(** ** Binary64 arithmetic as Python uses it *)

Module Binary64.

Definition prec : Z := 53.
Definition emax : Z := 1024.

(** An integer as an exact (not yet rounded) binary number [n * 2^0]. *)
Definition raw_of_int (n : Z) : spec_float :=
  match n with
  | Z0 => S754_zero false
  | Zpos p => S754_finite false p 0
  | Zneg p => S754_finite true p 0
  end.

(** [float(n)]: the integer rounded to the nearest double, ties to even. *)
Definition float_of_int (n : Z) : spec_float :=
  binary_normalize prec emax n 0 false.

(** [a / b] on two Python ints, [b] not zero: CPython returns the exact
    quotient rounded once to the nearest double.  [SFdiv] rounds the exact
    quotient of its two operands, whatever their mantissas are, so it is
    applied to the integers themselves. *)
Definition int_truediv (a b : Z) : spec_float :=
  SFdiv prec emax (raw_of_int a) (raw_of_int b).

(** [x * n] with [x] a float and [n] an int: [n] is converted, then the two
    doubles are multiplied. *)
Definition float_mul_int (x : spec_float) (n : Z) : spec_float :=
  SFmul prec emax x (float_of_int n).

(** The magnitude of a finite double truncated to an integer. *)
Definition trunc_mag (m : positive) (e : Z) : Z :=
  match e with
  | Zneg p => Z.shiftr (Zpos m) (Zpos p)
  | _ => Z.shiftl (Zpos m) e
  end.

(** [int(x)]: truncation toward zero; [None] on an infinity or a NaN, where
    Python raises. *)
Definition int_of_float (x : spec_float) : option Z :=
  match x with
  | S754_zero _ => Some 0
  | S754_finite s m e => Some (if s then - trunc_mag m e else trunc_mag m e)
  | S754_infinity _ | S754_nan => None
  end.

Definition is_finite (x : spec_float) : bool :=
  match x with
  | S754_zero _ | S754_finite _ _ _ => true
  | _ => false
  end.

End Binary64.

(** ** Python values, exceptions and results *)

(** The exceptions the script can meet.  None of them is caught: the script
    has no [try]. *)
Inductive exn :=
| ZeroDivisionError
| OverflowError
| ValueError
| KeyError (key : string)
| TypeError
| RequestException
| JSONDecodeError
| ImageError.

(** How a piece of Python ends: with a value, by [sys.exit(code)], or with
    an uncaught exception. *)
Inductive res (A : Type) :=
| Val (a : A)
| Exit (code : Z)
| Raise (e : exn).
Arguments Val {A} a.
Arguments Exit {A} code.
Arguments Raise {A} e.

Definition res_bind {A B : Type} (r : res A) (k : A -> res B) : res B :=
  match r with
  | Val a => k a
  | Exit c => Exit c
  | Raise e => Raise e
  end.

(** The values [response.json()] can return. *)
#[warnings="-register-all"]
Inductive pyval :=
| PNone
| PBool (b : bool)
| PInt (n : Z)
| PFloat (x : spec_float)
| PStr (s : string)
| PList (l : list pyval)
| PDict (d : gmap string pyval).

(** [v[key]] with a string key: only a dict accepts it, and only for a key
    it holds. *)
Definition subscript (v : pyval) (key : string) : res pyval :=
  match v with
  | PDict d =>
      match d !! key with
      | Some x => Val x
      | None => Raise (KeyError key)
      end
  | _ => Raise TypeError
  end.

(** [v == s] with [s] a string literal. *)
Definition eq_str (v : pyval) (s : string) : bool :=
  match v with
  | PStr t => String.eqb t s
  | _ => false
  end.

(** [str(n)] of an int, as an f-string inserts it. *)
Definition str_int (n : Z) : string := NilZero.string_of_int (Z.to_int n).

(** [f"{x}"] of the result of [os.getenv]: the text, or [None]. *)
Definition str_opt (x : option string) : string :=
  match x with
  | Some s => s
  | None => "None"
  end.

(** ** The scaler (lines 60 to 90 of [main]) *)

Module Scaler.
Import Binary64.

Definition screen_width : Z := 320.
Definition screen_height : Z := 240.

(** [a / b]: [ZeroDivisionError] on a zero divisor, [OverflowError] when
    the quotient is beyond the doubles. *)
Definition truediv (a b : Z) : res spec_float :=
  if b =? 0 then Raise ZeroDivisionError
  else match int_truediv a b with
       | S754_infinity _ => Raise OverflowError
       | q => Val q
       end.

(** [x * n]: [OverflowError] when [n] is beyond the doubles. *)
Definition mul_int (x : spec_float) (n : Z) : res spec_float :=
  match float_of_int n with
  | S754_infinity _ => Raise OverflowError
  | _ => Val (float_mul_int x n)
  end.

(** [int(x)]: [OverflowError] on an infinity, [ValueError] on a NaN. *)
Definition to_int (x : spec_float) : res Z :=
  match x with
  | S754_infinity _ => Raise OverflowError
  | S754_nan => Raise ValueError
  | _ => match int_of_float x with
         | Some n => Val n
         | None => Raise ValueError
         end
  end.

(** [int((scaled / image_side) * other_side)]. *)
Definition scale_side (scaled image_side other_side : Z) : res Z :=
  res_bind (truediv scaled image_side) (fun ratio =>
  res_bind (mul_int ratio other_side) to_int).

(** The pair [(scaled_width, scaled_height)] that [main] passes to
    [resize]. *)
Definition scaled_size (image_width image_height : Z) : res (Z * Z) :=
  if negb (image_width =? image_height) then
    if image_width >? image_height then
      let scaled_width := screen_width in
      res_bind (scale_side scaled_width image_width image_height)
        (fun scaled_height => Val (scaled_width, scaled_height))
    else
      let scaled_height := screen_height in
      res_bind (scale_side scaled_height image_height image_width)
        (fun scaled_width => Val (scaled_width, scaled_height))
  else
    let side := Z.min screen_width screen_height in
    Val (side, side).

(** The scaler as the specification words it, with the exact floor of the
    exact quotient; it is compared with [scaled_size] below. *)
Definition spec_scaled_size (iw ih : Z) : Z * Z :=
  if iw =? ih then (Z.min 320 240, Z.min 320 240)
  else if iw >? ih then (320, (320 * ih) / iw)
  else ((240 * iw) / ih, 240).

(** Pillow keeps the two sides of an image in C ints, so every size that
    [Image.open] reports is below [2^31]; the arithmetic facts below hold on
    the wider range of sides below [2^40]. *)
Definition dim_bound : Z := 2 ^ 40.

End Scaler.

(** ** The world of the script: environment, network, Pillow, files *)

Definition bytes := list byte.

(** What [requests.get] returns: the status, the body, and what [.json()]
    makes of the body ([None] when the body is not JSON). *)
Record Response := {
  status_code : Z;
  content : bytes;
  json_body : option pyval
}.

Inductive Resampling := NEAREST | BOX | BILINEAR | HAMMING | BICUBIC | LANCZOS.

(** A decoded bitmap: its [size] is [(width, height)]. *)
Record Image := {
  size : Z * Z;
  pixels : bytes
}.

(** A file on disk: a JPEG written by [Image.save], or anything else. *)
Inductive File :=
| JpegFile (progressive : bool) (im : Image)
| OtherFile (b : bytes).

(** Everything outside the script that a run depends on.  A failed [save]
    may leave anything on disk: the world says what. *)
Record World := {
  getenv : string -> option string;
  http_get : string -> res Response;
  image_open : bytes -> res Image;
  resize_error : Image -> Z * Z -> option exn;
  resample : Image -> Z * Z -> Resampling -> bytes;
  save_error : Image -> string -> gmap string File -> option (exn * gmap string File)
}.

(** What a run does that can be observed from outside. *)
Inductive Event :=
| HttpGet (url : pyval)
| ParseJson
| Print (line : string)
| ImageOpen (b : bytes)
| ImageResize (sz : Z * Z) (filter : Resampling)
| ImageSave (path : string) (format : string) (progressive : bool).

Record State := {
  trace : list Event;
  fs : gmap string File
}.

(** ** The script as a state and exit monad *)

Definition M (A : Type) : Type := State -> res A * State.

Definition ret {A : Type} (a : A) : M A := fun s => (Val a, s).

Definition bind {A B : Type} (m : M A) (k : A -> M B) : M B :=
  fun s =>
    match m s with
    | (Val a, s') => k a s'
    | (Exit c, s') => (Exit c, s')
    | (Raise e, s') => (Raise e, s')
    end.

Notation "'let*' x := m 'in' k" := (bind m (fun x => k))
  (at level 10, x name, m at level 100, k at level 200).
Notation "m >> k" := (bind m (fun _ => k))
  (at level 100, k at level 200, right associativity).

Definition lift {A : Type} (r : res A) : M A := fun s => (r, s).

Definition emit (e : Event) : M unit :=
  fun s => (Val tt, {| trace := trace s ++ [e]; fs := fs s |}).

Definition print (line : string) : M unit := emit (Print line).

Definition sys_exit {A : Type} (code : Z) : M A := lift (Exit code).

(** [requests.get(url)]: a URL that is not a string is refused before any
    request leaves. *)
Definition requests_get (w : World) (url : pyval) : M Response :=
  emit (HttpGet url) >>
  match url with
  | PStr u => lift (http_get w u)
  | _ => lift (Raise RequestException)
  end.

(** [response.json()]. *)
Definition response_json (r : Response) : M pyval :=
  emit ParseJson >>
  match json_body r with
  | Some v => ret v
  | None => lift (Raise JSONDecodeError)
  end.

(** [Image.open(io.BytesIO(b))]. *)
Definition Image_open (w : World) (b : bytes) : M Image :=
  emit (ImageOpen b) >> lift (image_open w b).

(** [image.resize(sz, resample=filter)]: a new image of the size asked. *)
Definition Image_resize (w : World) (im : Image) (sz : Z * Z)
    (filter : Resampling) : M Image :=
  emit (ImageResize sz filter) >>
  match resize_error w im sz with
  | Some e => lift (Raise e)
  | None => ret {| size := sz; pixels := resample w im sz filter |}
  end.

(** [image.save(path, format, progressive=p)] for the JPEG format: the file
    at [path] is created or replaced. *)
Definition Image_save (w : World) (im : Image) (path format : string)
    (p : bool) : M unit :=
  emit (ImageSave path format p) >>
  fun s =>
    match save_error w im path (fs s) with
    | Some (e, rest) => (Raise e, {| trace := trace s; fs := rest |})
    | None => (Val tt, {| trace := trace s; fs := <[path := JpegFile p im]> (fs s) |})
    end.

(** Lines 17 and 18: the URL of the metadata request. *)
Definition apod_api_url (w : World) : string :=
  "https://api.nasa.gov/planetary/apod?api_key="
    +:+ str_opt (getenv w "APOD_API_KEY") +:+ "&thumbs=True".

(** Lines 24 to 27 and 52 to 55: leave on a status other than 200. *)
Definition check_status (what : string) (response : Response) : M unit :=
  if negb (status_code response =? 200) then
    print what >>
    print ("Response Code: " +:+ str_int (status_code response)) >>
    sys_exit 1
  else ret tt.

(** Lines 33 to 46: the asset URL by media type. *)
Definition select_image_url (apod_api_json : pyval) : M pyval :=
  let* media_type := lift (subscript apod_api_json "media_type") in
  if eq_str media_type "image" then
    lift (subscript apod_api_json "url")
  else
    let* media_type' := lift (subscript apod_api_json "media_type") in
    if eq_str media_type' "video" then
      lift (subscript apod_api_json "thumbnail_url")
    else
      print "Error Parsing APOD API JSON" >>
      sys_exit 1.

Definition output_path : string := "../image/apod.jpg".

Definition main (w : World) : M unit :=
  let* response := requests_get w (PStr (apod_api_url w)) in
  check_status "Error Contacting APOD API" response >>
  let* apod_api_json := response_json response in
  let* apod_image_url := select_image_url apod_api_json in
  let* response := requests_get w apod_image_url in
  check_status "Error Downloading APOD Image" response >>
  let* image := Image_open w (content response) in
  let* scaled := lift (Scaler.scaled_size (fst (size image)) (snd (size image))) in
  let* image := Image_resize w image scaled LANCZOS in
  Image_save w image output_path "JPEG" false.

(** The status the process leaves: [0] after a normal return, the code of
    [sys.exit], [1] after an uncaught exception. *)
Definition exit_code {A : Type} (r : res A) : Z :=
  match r with
  | Val _ => 0
  | Exit c => c
  | Raise _ => 1
  end.

(** ** Auxiliary notions for the statements *)

(** The state after some more events, the files untouched. *)
Definition after (s : State) (es : list Event) : State :=
  {| trace := trace s ++ es; fs := fs s |}.

(** The two ways a metadata dict leads to an asset URL. *)
Definition resolves_to (d : gmap string pyval) (u : pyval) : Prop :=
  (d !! "media_type" = Some (PStr "image") /\ d !! "url" = Some u) \/
  (d !! "media_type" = Some (PStr "video") /\ d !! "thumbnail_url" = Some u).

(** ** A sample world

    One metadata endpoint and one asset; the statuses, the media type and
    the size of the decoded bitmap are left open. *)

Module Sample.

Definition asset_url : string := "http://x/img.jpg".

Definition metadata (media_type : string) : gmap string pyval :=
  <["media_type" := PStr media_type]>
    (<["url" := PStr asset_url]>
       (<["thumbnail_url" := PStr asset_url]> ∅)).

Definition meta_response (status : Z) (media_type : string) : Response :=
  {| status_code := status; content := [];
     json_body := Some (PDict (metadata media_type)) |}.

Definition asset_response (status : Z) : Response :=
  {| status_code := status; content := ["042"%byte]; json_body := None |}.

Definition world (meta_status asset_status : Z) (media_type : string)
    (sz : Z * Z) : World :=
  {| getenv := fun _ => Some "DEMO_KEY";
     http_get := fun u =>
       if String.eqb u asset_url then Val (asset_response asset_status)
       else Val (meta_response meta_status media_type);
     image_open := fun b => Val {| size := sz; pixels := b |};
     resize_error := fun _ _ => None;
     resample := fun im _ _ => pixels im;
     save_error := fun _ _ _ => None |}.

(** A start with an older file at the output path. *)
Definition start : State :=
  {| trace := []; fs := {[ "../image/apod.jpg" := OtherFile [] ]} |}.

End Sample.

(** ** Notions for the statements about whole runs *)

Definition is_print (e : Event) : bool :=
  match e with Print _ => true | _ => false end.

Definition is_request (e : Event) : bool :=
  match e with HttpGet _ => true | _ => false end.

Definition is_save (e : Event) : bool :=
  match e with ImageSave _ _ _ => true | _ => false end.

(** The calls into [requests] and Pillow return or raise; they do not leave
    the process by themselves. *)
Definition library_never_exits (w : World) : Prop :=
  (forall u c, http_get w u <> Exit c) /\ (forall b c, image_open w b <> Exit c).

(** Worlds that go wrong: a metadata endpoint that answers 200 with a given
    body and no key set, and the sample world with a failing Pillow. *)
Module Faulty.

Definition json_world (body : option pyval) : World :=
  {| getenv := fun _ => None;
     http_get := fun _ =>
       Val {| status_code := 200; content := []; json_body := body |};
     image_open := fun _ => Raise ImageError;
     resize_error := fun _ _ => None;
     resample := fun _ _ _ => [];
     save_error := fun _ _ _ => None |}.

Definition api_url : string :=
  "https://api.nasa.gov/planetary/apod?api_key=None&thumbs=True".

Definition pillow_world (sz : Z * Z) (open_fails resize_fails : bool) : World :=
  {| getenv := getenv (Sample.world 200 200 "image" sz);
     http_get := http_get (Sample.world 200 200 "image" sz);
     image_open := fun b =>
       if open_fails then Raise ImageError
       else Val {| size := sz; pixels := b |};
     resize_error := fun _ _ => if resize_fails then Some ValueError else None;
     resample := fun im _ _ => pixels im;
     save_error := fun _ _ _ => None |}.

End Faulty.

(** * Facts *)

(** ** Rounding in binary64

    [binary_round_aux] is the one rounding step behind [SFdiv], [SFmul] and
    the conversion of integers.  On a mantissa of at least 53 digits in the
    normal range it returns a 53-digit mantissa within one unit in the last
    place of its input. *)

Module Binary64Facts.
Import Binary64.

Lemma digits2_pos_size (p : positive) : digits2_pos p = Pos.size p.
Proof. induction p; simpl; congruence. Qed.

Lemma Zdigits2_bounds (p : positive) :
  2 ^ (Zdigits2 (Zpos p) - 1) <= Zpos p < 2 ^ Zdigits2 (Zpos p).
Proof.
  simpl. rewrite digits2_pos_size.
  pose proof (Pos.size_gt p) as Hgt. pose proof (Pos.size_le p) as Hle.
  assert (Hs : 0 < Z.pos (Pos.size p)) by lia.
  split.
  - assert (H2 : 2 ^ Z.pos (Pos.size p) <= 2 * Z.pos p).
    { rewrite <- Pos2Z.inj_pow. change (2 * Z.pos p) with (Z.pos p~0). lia. }
    replace (Z.pos (Pos.size p)) with (Z.succ (Z.pos (Pos.size p) - 1)) in H2 by lia.
    rewrite Z.pow_succ_r in H2 by lia. lia.
  - rewrite <- Pos2Z.inj_pow. lia.
Qed.

Lemma Zdigits2_unique (q d : Z) :
  2 ^ (d - 1) <= q < 2 ^ d -> 0 < d -> Zdigits2 q = d.
Proof.
  intros [Hlo Hhi] Hd.
  assert (Hq : 0 < q) by (pose proof (Z.pow_pos_nonneg 2 (d - 1)); lia).
  destruct q as [|p|p]; try lia.
  pose proof (Zdigits2_bounds p) as [Hlo' Hhi'].
  set (d' := Zdigits2 (Z.pos p)) in *.
  assert (0 < d') by (subst d'; simpl; lia).
  destruct (Z.lt_trichotomy d d') as [Hlt | [Heq | Hgt]]; [ | lia | ].
  - assert (2 ^ d <= 2 ^ (d' - 1)) by (apply Z.pow_le_mono_r; lia). lia.
  - assert (2 ^ d' <= 2 ^ (d - 1)) by (apply Z.pow_le_mono_r; lia). lia.
Qed.

Lemma shr_1_m (r : shr_record) : 0 <= shr_m r -> shr_m (shr_1 r) = shr_m r / 2.
Proof.
  destruct r as [m r s]; simpl. intros Hm.
  destruct m as [|[p|p|]|p]; simpl; try reflexivity; try lia.
  - rewrite Pos2Z.inj_xI. apply Z.div_unique with (r := 1); lia.
  - rewrite Pos2Z.inj_xO. apply Z.div_unique with (r := 0); lia.
Qed.

Lemma iter_shr_1_m (p : positive) : forall r : shr_record,
  0 <= shr_m r -> shr_m (SpecFloat.iter_pos shr_1 p r) = shr_m r / 2 ^ Zpos p.
Proof.
  induction p as [p IH | p IH | ]; intros r Hr; simpl SpecFloat.iter_pos.
  - assert (H1 : 0 <= shr_m (shr_1 r)) by (rewrite shr_1_m by lia; apply Z.div_pos; lia).
    assert (H2 : 0 <= shr_m (SpecFloat.iter_pos shr_1 p (shr_1 r)))
      by (rewrite IH by lia; apply Z.div_pos; [lia | apply Z.pow_pos_nonneg; lia]).
    rewrite IH, IH, shr_1_m by lia.
    rewrite !Z.div_div by (try apply Z.pow_pos_nonneg; lia).
    f_equal. replace (Z.pos p~1) with (1 + Z.pos p + Z.pos p) by lia.
    rewrite !Z.pow_add_r by lia. change (2 ^ 1) with 2. lia.
  - assert (H2 : 0 <= shr_m (SpecFloat.iter_pos shr_1 p r))
      by (rewrite IH by lia; apply Z.div_pos; [lia | apply Z.pow_pos_nonneg; lia]).
    rewrite IH, IH by lia.
    rewrite !Z.div_div by (try apply Z.pow_pos_nonneg; lia).
    f_equal. replace (Z.pos p~0) with (Z.pos p + Z.pos p) by lia.
    rewrite !Z.pow_add_r by lia. lia.
  - rewrite shr_1_m by lia. reflexivity.
Qed.

Lemma shr_m_of_loc (m : Z) (l : location) : shr_m (shr_record_of_loc m l) = m.
Proof. destruct l as [|[]]; reflexivity. Qed.

Lemma loc_of_shr_of_loc (m : Z) (l : location) :
  loc_of_shr_record (shr_record_of_loc m l) = l.
Proof. destruct l as [|[]]; reflexivity. Qed.

Lemma shr_spec (m : Z) (l : location) (e n : Z) :
  0 <= m -> 0 <= n ->
  exists r, shr (shr_record_of_loc m l) e n = (r, e + n) /\ shr_m r = m / 2 ^ n.
Proof.
  intros Hm Hn. destruct n as [|p|p]; try lia.
  - exists (shr_record_of_loc m l). simpl. rewrite shr_m_of_loc, Z.div_1_r.
    split; [f_equal; lia | reflexivity].
  - eexists; split; [reflexivity|].
    rewrite iter_shr_1_m; rewrite shr_m_of_loc; [reflexivity | lia].
Qed.

Lemma round_nearest_even_cases (m : Z) (l : location) :
  round_nearest_even m l = m \/ round_nearest_even m l = m + 1.
Proof. destruct l as [|[]]; simpl; auto. destruct (Z.even m); auto. Qed.

Lemma fexp_normal (x : Z) : -1074 <= x - 53 -> fexp prec emax x = x - 53.
Proof. unfold fexp, emin, prec, emax. lia. Qed.

Lemma pow2_split (a b : Z) : 0 <= a -> 0 <= b -> 2 ^ (a + b) = 2 ^ a * 2 ^ b.
Proof. intros. apply Z.pow_add_r; lia. Qed.

Lemma binary_round_aux_bounds (sx : bool) (q e : Z) (l : location) :
  0 < q -> 53 <= Zdigits2 q ->
  -1074 <= Zdigits2 q + e - 53 -> Zdigits2 q + e <= 1023 ->
  exists (m : positive) (n : Z),
    binary_round_aux prec emax sx q e l = S754_finite sx m (e + n) /\
    Zdigits2 q - 53 <= n <= Zdigits2 q - 52 /\
    2 ^ 52 <= Zpos m < 2 ^ 53 /\
    (Zpos m - 1) * 2 ^ n <= q /\ q + 1 <= (Zpos m + 1) * 2 ^ n.
Proof.
  intros Hq Hd Hlo Hhi.
  assert (Hb : 2 ^ (Zdigits2 q - 1) <= q < 2 ^ Zdigits2 q).
  { destruct q as [|p|p]; try lia. apply Zdigits2_bounds. }
  remember (Zdigits2 q) as d eqn:Ed.
  assert (En : exists n0, d = n0 + 53 /\ 0 <= n0) by (exists (d - 53); lia).
  destruct En as (n0 & -> & Hn0).
  assert (Hp0 : 0 < 2 ^ n0) by (apply Z.pow_pos_nonneg; lia).
  replace (n0 + 53 - 1) with (n0 + 52) in Hb by lia.
  rewrite !pow2_split in Hb by lia.
  unfold binary_round_aux, shr_fexp. rewrite <- Ed.
  rewrite fexp_normal by lia.
  replace (n0 + 53 + e - 53 - e) with n0 by lia.
  destruct (shr_spec q l e n0) as (r & -> & Hr); [lia | lia |].
  remember (shr_m r) as m1 eqn:Em1.
  assert (Hm1 : m1 * 2 ^ n0 <= q < (m1 + 1) * 2 ^ n0).
  { rewrite Hr. pose proof (Z.mul_div_le q (2 ^ n0) Hp0).
    pose proof (Z.mul_succ_div_gt q (2 ^ n0) Hp0). lia. }
  clear Hr.
  assert (Hm1b : 2 ^ 52 <= m1 < 2 ^ 53).
  { split.
    - destruct (Z_lt_le_dec m1 (2 ^ 52)) as [Hlt|]; [exfalso | assumption].
      assert ((m1 + 1) * 2 ^ n0 <= 2 ^ 52 * 2 ^ n0)
        by (apply Z.mul_le_mono_nonneg_r; lia).
      lia.
    - destruct (Z_lt_le_dec m1 (2 ^ 53)) as [|Hge]; [assumption | exfalso].
      assert (2 ^ 53 * 2 ^ n0 <= m1 * 2 ^ n0)
        by (apply Z.mul_le_mono_nonneg_r; lia).
      lia. }
  remember (round_nearest_even m1 (loc_of_shr_record r)) as m2 eqn:Em2.
  assert (Hm2 : m2 = m1 \/ m2 = m1 + 1) by (subst m2; apply round_nearest_even_cases).
  clear Em2.
  destruct (Z_lt_le_dec m2 (2 ^ 53)) as [Hsmall | Hcarry].
  - (* the rounded mantissa still has 53 digits *)
    assert (Hd2 : Zdigits2 m2 = 53) by (apply Zdigits2_unique; simpl; lia).
    rewrite Hd2, fexp_normal by lia.
    replace (53 + (e + n0) - 53 - (e + n0)) with 0 by lia.
    destruct (shr_spec m2 loc_Exact (e + n0) 0) as (r2 & -> & Hr2); [lia | lia |].
    rewrite Hr2, Z.div_1_r.
    destruct m2 as [|p2|p2] eqn:Ep; try lia.
    replace (e + n0 + 0 <=? emax - prec) with true
      by (symmetry; apply Z.leb_le; unfold emax, prec; lia).
    exists p2, n0. replace (e + n0 + 0) with (e + n0) by lia.
    repeat split; try lia; nia.
  - (* rounding up carried into a 54th digit *)
    assert (Em2 : m2 = 2 ^ 53) by lia.
    rewrite Em2 in *.
    change (Zdigits2 (2 ^ 53)) with 54.
    rewrite fexp_normal by lia.
    replace (54 + (e + n0) - 53 - (e + n0)) with 1 by lia.
    destruct (shr_spec (2 ^ 53) loc_Exact (e + n0) 1) as (r2 & -> & Hr2); [lia | lia |].
    rewrite Hr2. change (2 ^ 53 / 2 ^ 1) with (Zpos (2 ^ 52)).
    cbv iota beta.
    replace (e + n0 + 1 <=? emax - prec) with true
      by (symmetry; apply Z.leb_le; unfold emax, prec; lia).
    exists (2 ^ 52)%positive, (n0 + 1). replace (e + (n0 + 1)) with (e + n0 + 1) by lia.
    rewrite pow2_split by lia. change (2 ^ 1) with 2.
    change (Zpos (2 ^ 52)) with (2 ^ 52).
    repeat split; try lia; nia.
Qed.

Lemma binary_round_aux_exact (sx : bool) (p : positive) (e : Z) :
  Zdigits2 (Zpos p) = 53 -> -1074 <= e -> e <= 971 ->
  binary_round_aux prec emax sx (Zpos p) e loc_Exact = S754_finite sx p e.
Proof.
  intros Hd Hlo Hhi.
  unfold binary_round_aux, shr_fexp. rewrite Hd, fexp_normal by lia.
  replace (53 + e - 53 - e) with 0 by lia.
  cbn [shr shr_record_of_loc shr_m loc_of_shr_record round_nearest_even].
  rewrite Hd, fexp_normal by lia.
  replace (53 + e - 53 - e) with 0 by lia.
  cbn [shr shr_record_of_loc shr_m].
  replace (e <=? emax - prec) with true
    by (symmetry; apply Z.leb_le; unfold emax, prec; lia).
  reflexivity.
Qed.

Lemma iter_xO_pow2 (p k : positive) : Zpos (Pos.iter xO p k) = Zpos p * 2 ^ Zpos k.
Proof.
  apply (Pos.iter_ind positive xO p (fun k a => Zpos a = Zpos p * 2 ^ Zpos k)).
  - rewrite Pos2Z.inj_xO. change (2 ^ 1) with 2. lia.
  - intros j a IH. rewrite Pos2Z.inj_xO, IH, Pos2Z.inj_succ, Z.pow_succ_r by lia. lia.
Qed.

Lemma Zdigits2_pos (q : Z) : 0 < q -> 0 < Zdigits2 q.
Proof. destruct q; simpl; lia. Qed.

Lemma Zdigits2_le (q d : Z) : 0 < q < 2 ^ d -> 0 <= d -> Zdigits2 q <= d.
Proof.
  intros [Hq Hlt] Hd. destruct q as [|p|p]; try lia.
  pose proof (Zdigits2_bounds p) as [Hlo _].
  destruct (Z_le_gt_dec (Zdigits2 (Zpos p)) d) as [|Hgt]; [assumption | exfalso].
  assert (2 ^ d <= 2 ^ (Zdigits2 (Zpos p) - 1)) by (apply Z.pow_le_mono_r; lia).
  lia.
Qed.

(** [float(b)] is exact when [b] fits the 53-bit mantissa. *)
Lemma float_of_int_exact (b : Z) :
  0 < b < 2 ^ 53 ->
  exists (m : positive) (J : Z),
    float_of_int b = S754_finite false m (- J) /\
    0 <= J <= 52 /\ Zpos m = b * 2 ^ J /\ 2 ^ 52 <= Zpos m < 2 ^ 53.
Proof.
  intros [Hb Hlt]. destruct b as [|p|p]; try lia.
  pose proof (Zdigits2_bounds p) as Hd.
  pose proof (Zdigits2_le (Zpos p) 53 ltac:(lia) ltac:(lia)) as Hd53.
  pose proof (Zdigits2_pos (Zpos p) ltac:(lia)) as Hd0.
  unfold float_of_int, binary_normalize, binary_round, shl_align.
  change (Zpos (digits2_pos p)) with (Zdigits2 (Zpos p)) in *.
  remember (Zdigits2 (Zpos p)) as d eqn:Ed.
  rewrite fexp_normal by lia.
  replace (d + 0 - 53 - 0) with (d - 53) by lia.
  destruct (d - 53) as [|k|k] eqn:Ek; try lia.
  - assert (d = 53) by lia. subst d.
    rewrite binary_round_aux_exact by (assumption || lia).
    exists p, 0. change (- 0) with 0. rewrite Z.mul_1_r.
    rewrite H in Hd. change (53 - 1) with 52 in Hd. repeat split; lia.
  - replace (d + 0 - 53) with (- Zpos k) by lia.
    assert (Hm : Zpos (Pos.iter xO p k) = Zpos p * 2 ^ Zpos k) by apply iter_xO_pow2.
    assert (Hr : 2 ^ 52 <= Zpos p * 2 ^ Zpos k < 2 ^ 53).
    { assert (E52 : 2 ^ 52 = 2 ^ (d - 1) * 2 ^ Zpos k)
        by (rewrite <- pow2_split by lia; f_equal; lia).
      assert (E53 : 2 ^ 53 = 2 ^ d * 2 ^ Zpos k)
        by (rewrite <- pow2_split by lia; f_equal; lia).
      rewrite E52, E53.
      assert (0 < 2 ^ Zpos k) by (apply Z.pow_pos_nonneg; lia).
      split; [apply Z.mul_le_mono_nonneg_r | apply Z.mul_lt_mono_pos_r]; lia. }
    rewrite binary_round_aux_exact.
    + exists (Pos.iter xO p k), (Zpos k). repeat split; try lia.
    + apply Zdigits2_unique; [rewrite Hm; simpl; lia | lia].
    + lia.
    + lia.
Qed.

Lemma shift_mantissa (m s : Z) :
  0 <= s ->
  match s with Zpos _ => Z.shiftl m s | Z0 => m | Zneg _ => 0 end = m * 2 ^ s.
Proof.
  intros Hs. destruct s as [|p|p]; try lia.
  apply Z.shiftl_mul_pow2. lia.
Qed.

(** The quotient of two positive integers: a normal double within one unit
    in the last place of the exact quotient. *)
Lemma int_truediv_bounds (s a : Z) :
  0 < s < 2 ^ 52 -> 0 < a < 2 ^ 53 ->
  exists (m : positive) (K : Z),
    int_truediv s a = S754_finite false m (- K) /\
    0 <= K <= 105 /\ 2 ^ 52 <= Zpos m < 2 ^ 53 /\
    (Zpos m - 1) * a <= s * 2 ^ K /\ s * 2 ^ K <= (Zpos m + 1) * a.
Proof.
  intros [Hs Hs52] [Ha Ha53].
  destruct s as [|ps|ps]; try lia. destruct a as [|pa|pa]; try lia.
  pose proof (Zdigits2_bounds ps) as Hds. pose proof (Zdigits2_bounds pa) as Hda.
  pose proof (Zdigits2_le (Zpos ps) 52 ltac:(lia) ltac:(lia)) as Hds52.
  pose proof (Zdigits2_le (Zpos pa) 53 ltac:(lia) ltac:(lia)) as Hda53.
  pose proof (Zdigits2_pos (Zpos ps) ltac:(lia)) as Hds0.
  pose proof (Zdigits2_pos (Zpos pa) ltac:(lia)) as Hda0.
  unfold int_truediv, raw_of_int, SFdiv, SFdiv_core_binary.
  remember (Zdigits2 (Zpos ps)) as d1 eqn:Ed1.
  remember (Zdigits2 (Zpos pa)) as d2 eqn:Ed2.
  rewrite fexp_normal by lia.
  replace (Z.min (d1 + 0 - (d2 + 0) - 53) (0 - 0)) with (d1 - d2 - 53) by lia.
  remember (53 + d2 - d1) as S eqn:ES.
  replace (0 - 0 - (d1 - d2 - 53)) with S by lia.
  replace (d1 - d2 - 53) with (- S) by lia.
  assert (HS : 2 <= S <= 105) by lia.
  rewrite shift_mantissa by lia.
  assert (HpS : 0 < 2 ^ S) by (apply Z.pow_pos_nonneg; lia).
  remember (Zpos ps * 2 ^ S) as N eqn:EN.
  pose proof (Z_div_mod N (Zpos pa) ltac:(lia)) as Hdm.
  destruct (Z.div_eucl N (Zpos pa)) as [q r]. destruct Hdm as [HN Hr].
  (* the scaled numerator has [d2 + 53] digits *)
  assert (HNb : 2 ^ (d2 + 52) <= N < 2 ^ (d2 + 53)).
  { subst N. replace (d2 + 52) with (d1 - 1 + S) by lia.
    replace (d2 + 53) with (d1 + S) by lia.
    rewrite !pow2_split by lia.
    split; [apply Z.mul_le_mono_nonneg_r | apply Z.mul_lt_mono_pos_r]; lia. }
  assert (E1 : 2 ^ (d2 + 52) = 2 ^ d2 * 2 ^ 52) by (apply pow2_split; lia).
  assert (E2 : 2 ^ (d2 + 53) = 2 ^ (d2 - 1) * 2 ^ 54)
    by (rewrite <- pow2_split by lia; f_equal; lia).
  rewrite E1, E2 in HNb. clear E1 E2.
  assert (Hq : 2 ^ 52 <= q < 2 ^ 54).
  { split.
    - destruct (Z_lt_le_dec q (2 ^ 52)) as [Hlt|]; [exfalso | assumption].
      assert (Z.pos pa * (q + 1) <= Z.pos pa * 2 ^ 52)
        by (apply Z.mul_le_mono_nonneg_l; lia).
      assert (Z.pos pa * 2 ^ 52 <= 2 ^ d2 * 2 ^ 52)
        by (apply Z.mul_le_mono_nonneg_r; lia).
      lia.
    - destruct (Z_lt_le_dec q (2 ^ 54)) as [|Hge]; [assumption | exfalso].
      assert (Z.pos pa * 2 ^ 54 <= Z.pos pa * q)
        by (apply Z.mul_le_mono_nonneg_l; lia).
      assert (2 ^ (d2 - 1) * 2 ^ 54 <= Z.pos pa * 2 ^ 54)
        by (apply Z.mul_le_mono_nonneg_r; lia).
      lia. }
  assert (Hdq : 53 <= Zdigits2 q <= 54).
  { destruct (Z_lt_le_dec q (2 ^ 53)).
    - rewrite (Zdigits2_unique q 53); simpl; lia.
    - rewrite (Zdigits2_unique q 54); simpl; lia. }
  destruct (binary_round_aux_bounds (xorb false false) q (- S)
              (new_location (Z.pos pa) r)) as (m & n & -> & Hn & Hm & Hlo & Hhi);
    try lia.
  exists m, (S - n). split; [simpl; f_equal; lia|].
  split; [lia|]. split; [lia|].
  assert (Hpn : 0 < 2 ^ n) by (apply Z.pow_pos_nonneg; lia).
  assert (ES2 : 2 ^ S = 2 ^ (S - n) * 2 ^ n)
    by (rewrite <- pow2_split by lia; f_equal; lia).
  rewrite ES2 in EN.
  split.
  - apply (Z.mul_le_mono_pos_r _ _ (2 ^ n) Hpn).
    assert ((Z.pos m - 1) * 2 ^ n * Z.pos pa <= q * Z.pos pa)
      by (apply Z.mul_le_mono_nonneg_r; lia).
    lia.
  - apply (Z.mul_le_mono_pos_r _ _ (2 ^ n) Hpn).
    assert ((q + 1) * Z.pos pa <= (Z.pos m + 1) * 2 ^ n * Z.pos pa)
      by (apply Z.mul_le_mono_nonneg_r; lia).
    lia.
Qed.

Ltac prod_sign := repeat (apply Z.mul_nonneg_nonneg || apply Z.mul_pos_pos); lia.

(** Two roundings in a row, each within one unit in the last place of a
    mantissa of at least [E], seen from the integers: [m1 / A] approximates
    [s / a], [m2 * N / (A * B)] approximates [(m1 / A) * b] and [h] is the
    integer part of the latter. *)
Lemma two_roundings (s a b m1 m2 h A B N E : Z) :
  0 < a -> 0 <= b -> 0 <= s -> 0 < A -> 0 < B -> 0 < N -> 0 < E -> 0 <= h ->
  E <= m1 -> E <= m2 ->
  (m1 - 1) * a <= s * A -> s * A <= (m1 + 1) * a ->
  (m2 - 1) * N <= m1 * (b * B) -> m1 * (b * B) + 1 <= (m2 + 1) * N ->
  h * (A * B) <= m2 * N -> m2 * N < (h + 1) * (A * B) ->
  h * a * ((E - 1) * (E - 1)) <= s * b * (E * E) /\
  s * b * (E * E) < (h + 1) * a * ((E + 1) * (E + 1)).
Proof.
  intros Ha Hb Hs HA HB HN HE Hh Hm1 Hm2 D1 D2 M1 M2 T1 T2.
  assert (HAB : 0 < A * B) by lia.
  split.
  - apply (Z.mul_le_mono_pos_r _ _ (A * B) HAB).
    assert (S1 : h * (A * B) * (a * ((E - 1) * (E - 1))) <=
                 m2 * N * (a * ((E - 1) * (E - 1))))
      by (apply Z.mul_le_mono_nonneg_r; [prod_sign | assumption]).
    assert (S2 : (E - 1) * m2 * (N * a * (E - 1)) <= E * (m2 - 1) * (N * a * (E - 1)))
      by (apply Z.mul_le_mono_nonneg_r; [prod_sign | lia]).
    assert (S3 : (m2 - 1) * N * (E * a * (E - 1)) <= m1 * (b * B) * (E * a * (E - 1)))
      by (apply Z.mul_le_mono_nonneg_r; [prod_sign | assumption]).
    assert (S4 : (E - 1) * m1 * (E * b * B * a) <= E * (m1 - 1) * (E * b * B * a))
      by (apply Z.mul_le_mono_nonneg_r; [prod_sign | lia]).
    assert (S5 : (m1 - 1) * a * (E * E * b * B) <= s * A * (E * E * b * B))
      by (apply Z.mul_le_mono_nonneg_r; [prod_sign | assumption]).
    lia.
  - apply (Z.mul_lt_mono_pos_r (A * B) _ _ HAB).
    assert (S1 : s * A * (b * B * (E * E)) <= (m1 + 1) * a * (b * B * (E * E)))
      by (apply Z.mul_le_mono_nonneg_r; [prod_sign | assumption]).
    assert (S2 : E * (m1 + 1) * (a * b * B * E) <= (E + 1) * m1 * (a * b * B * E))
      by (apply Z.mul_le_mono_nonneg_r; [prod_sign | lia]).
    assert (S3 : (m1 * (b * B) + 1) * ((E + 1) * E * a) <= (m2 + 1) * N * ((E + 1) * E * a))
      by (apply Z.mul_le_mono_nonneg_r; [prod_sign | assumption]).
    assert (S4 : E * (m2 + 1) * ((E + 1) * a * N) <= (E + 1) * m2 * ((E + 1) * a * N))
      by (apply Z.mul_le_mono_nonneg_r; [prod_sign | lia]).
    assert (S5 : m2 * N * ((E + 1) * (E + 1) * a) < (h + 1) * (A * B) * ((E + 1) * (E + 1) * a))
      by (apply Z.mul_lt_mono_pos_r; [prod_sign | assumption]).
    assert (S6 : 0 < (E + 1) * E * a) by prod_sign.
    lia.
Qed.

Lemma trunc_mag_neg (m : positive) (e : Z) :
  e < 0 -> trunc_mag m e = Zpos m / 2 ^ (- e).
Proof.
  intros He. destruct e as [|p|p]; try lia.
  unfold trunc_mag. rewrite Z.shiftr_div_pow2 by lia. reflexivity.
Qed.

Lemma trunc_mag_nonneg (m : positive) (e : Z) :
  0 <= e -> trunc_mag m e = Zpos m * 2 ^ e.
Proof.
  intros He. destruct e as [|p|p]; try lia; unfold trunc_mag;
    rewrite Z.shiftl_mul_pow2 by lia; reflexivity.
Qed.

(** [int((s / a) * b)] on positive integers: the result exists and lies
    within two relative roundings of the exact quotient [s * b / a]. *)
Lemma scaled_dim_bounds (s a b : Z) :
  0 < s < 2 ^ 52 -> 0 < a < 2 ^ 53 -> 0 < b < 2 ^ 53 ->
  exists h,
    int_of_float (float_mul_int (int_truediv s a) b) = Some h /\
    0 <= h /\
    h * a * ((2 ^ 52 - 1) * (2 ^ 52 - 1)) <= s * b * (2 ^ 52 * 2 ^ 52) /\
    s * b * (2 ^ 52 * 2 ^ 52) < (h + 1) * a * ((2 ^ 52 + 1) * (2 ^ 52 + 1)).
Proof.
  intros Hs Ha Hb.
  destruct (int_truediv_bounds s a Hs Ha) as (m1 & K & -> & HK & Hm1 & D1 & D2).
  destruct (float_of_int_exact b Hb) as (M & J & EM & HJ & HMv & HMb).
  unfold float_mul_int. rewrite EM. unfold SFmul.
  assert (HP : 2 ^ 104 <= Zpos (m1 * M) < 2 ^ 106).
  { rewrite Pos2Z.inj_mul.
    change (2 ^ 104) with (2 ^ 52 * 2 ^ 52). change (2 ^ 106) with (2 ^ 53 * 2 ^ 53).
    split; [apply Z.mul_le_mono_nonneg | apply Z.mul_lt_mono_nonneg]; lia. }
  assert (Hd : 105 <= Zdigits2 (Zpos (m1 * M)) <= 106).
  { destruct (Z_lt_le_dec (Zpos (m1 * M)) (2 ^ 105)).
    - rewrite (Zdigits2_unique (Zpos (m1 * M)) 105); simpl; lia.
    - rewrite (Zdigits2_unique (Zpos (m1 * M)) 106); simpl; lia. }
  destruct (binary_round_aux_bounds (xorb false false) (Zpos (m1 * M))
              (- K + - J) loc_Exact) as (m2 & n & -> & Hn & Hm2 & M1 & M2);
    try lia.
  rewrite Pos2Z.inj_mul, HMv in M1, M2.
  cbn [xorb int_of_float].
  eexists; split; [reflexivity|].
  assert (HA : 0 < 2 ^ K) by (apply Z.pow_pos_nonneg; lia).
  assert (HB : 0 < 2 ^ J) by (apply Z.pow_pos_nonneg; lia).
  assert (HN : 0 < 2 ^ n) by (apply Z.pow_pos_nonneg; lia).
  set (h := trunc_mag m2 (- K + - J + n)).
  assert (HT : 0 <= h /\ h * (2 ^ K * 2 ^ J) <= Zpos m2 * 2 ^ n
               /\ Zpos m2 * 2 ^ n < (h + 1) * (2 ^ K * 2 ^ J)).
  { rewrite <- pow2_split by lia.
    destruct (Z_lt_le_dec (- K + - J + n) 0) as [Hneg | Hpos].
    - assert (Eh : h = Zpos m2 / 2 ^ (K + J - n)).
      { subst h. rewrite trunc_mag_neg by lia. do 2 f_equal. lia. }
      assert (HC : 0 < 2 ^ (K + J - n)) by (apply Z.pow_pos_nonneg; lia).
      assert (EX : 2 ^ (K + J) = 2 ^ (K + J - n) * 2 ^ n)
        by (rewrite <- pow2_split by lia; f_equal; lia).
      rewrite EX.
      pose proof (Z.mul_div_le (Zpos m2) _ HC) as L1.
      pose proof (Z.mul_succ_div_gt (Zpos m2) _ HC) as L2.
      rewrite <- Eh in L1, L2.
      assert (Hh : 0 <= h) by (rewrite Eh; apply Z.div_pos; lia).
      clear Eh. clearbody h.
      assert (L1' : 2 ^ (K + J - n) * h * 2 ^ n <= Zpos m2 * 2 ^ n)
        by (apply Z.mul_le_mono_nonneg_r; lia).
      assert (L2' : Zpos m2 * 2 ^ n < 2 ^ (K + J - n) * Z.succ h * 2 ^ n)
        by (apply Z.mul_lt_mono_pos_r; lia).
      repeat split; lia.
    - assert (Eh : h = Zpos m2 * 2 ^ (- K + - J + n)).
      { subst h. apply trunc_mag_nonneg. lia. }
      assert (HC : 0 < 2 ^ (- K + - J + n)) by (apply Z.pow_pos_nonneg; lia).
      assert (HX : 0 < 2 ^ (K + J)) by (apply Z.pow_pos_nonneg; lia).
      assert (EX : 2 ^ n = 2 ^ (- K + - J + n) * 2 ^ (K + J))
        by (rewrite <- pow2_split by lia; f_equal; lia).
      rewrite EX. clearbody h. subst h.
      repeat split; lia. }
  clearbody h. destruct HT as (Hh & T1 & T2).
  split; [assumption|].
  apply (two_roundings s a b (Zpos m1) (Zpos m2) h (2 ^ K) (2 ^ J) (2 ^ n)); lia.
Qed.

End Binary64Facts.

(** ** The scaler *)

Module ScalerFacts.
Import Binary64 Binary64Facts Scaler.

Lemma to_int_of_float (x : spec_float) (h : Z) :
  int_of_float x = Some h -> to_int x = Val h.
Proof. destruct x; simpl; intros H; try discriminate; congruence. Qed.

(** From the two relative bounds of [scaled_dim_bounds] to the floor of the
    exact quotient. *)
Lemma floor_of_bounds (s a b h : Z) :
  0 < s <= 1024 -> 0 < b < a -> a < 2 ^ 40 -> 0 <= h ->
  h * a * ((2 ^ 52 - 1) * (2 ^ 52 - 1)) <= s * b * (2 ^ 52 * 2 ^ 52) ->
  s * b * (2 ^ 52 * 2 ^ 52) < (h + 1) * a * ((2 ^ 52 + 1) * (2 ^ 52 + 1)) ->
  (s * b) / a - 1 <= h <= (s * b) / a /\
  ((s * b) mod a <> 0 -> h = (s * b) / a).
Proof.
  intros Hs Hb Ha Hh G1 G2.
  pose proof (Z.div_mod (s * b) a ltac:(lia)) as Hdm.
  pose proof (Z.mod_pos_bound (s * b) a ltac:(lia)) as Hr.
  remember ((s * b) / a) as F eqn:EF. remember ((s * b) mod a) as R eqn:ER.
  assert (HX1 : s * b <= 1024 * b) by (apply Z.mul_le_mono_nonneg_r; lia).
  assert (HX0 : 0 < s * b) by (apply Z.mul_pos_pos; lia).
  remember (s * b) as X eqn:EX.
  assert (HF : 0 <= F).
  { destruct (Z_lt_le_dec F 0) as [Hneg|]; [exfalso | assumption].
    assert (a * F <= a * (-1)) by (apply Z.mul_le_mono_nonneg_l; lia). lia. }
  assert (Hup : h <= F).
  { destruct (Z_le_gt_dec h F) as [|Hgt]; [assumption | exfalso].
    assert ((F + 1) * a <= h * a) by (apply Z.mul_le_mono_nonneg_r; lia).
    lia. }
  assert (Hlo : F - 1 <= h).
  { destruct (Z_le_gt_dec (F - 1) h) as [|Hgt]; [assumption | exfalso].
    assert ((h + 1) * a <= (F - 1) * a) by (apply Z.mul_le_mono_nonneg_r; lia).
    lia. }
  split; [lia|].
  intros HR.
  destruct (Z.eq_dec h F) as [|Hne]; [assumption | exfalso].
  assert ((h + 1) * a <= F * a) by (apply Z.mul_le_mono_nonneg_r; lia).
  lia.
Qed.

(** [int((s / a) * b)] for a screen side [s] and image sides [b < a]: it
    returns, and the result is the floor of [s * b / a] or, only when [a]
    divides [s * b], possibly one less. *)
Lemma scale_side_floor (s a b : Z) :
  0 < s <= 1024 -> 0 <= b < a -> a < dim_bound ->
  exists h,
    scale_side s a b = Val h /\
    0 <= h /\
    (s * b) / a - 1 <= h <= (s * b) / a /\
    ((s * b) mod a <> 0 -> h = (s * b) / a).
Proof.
  unfold dim_bound. intros Hs Hb Ha.
  assert (Hs52 : 0 < s < 2 ^ 52) by lia.
  assert (Ha53 : 0 < a < 2 ^ 53) by lia.
  destruct (int_truediv_bounds s a Hs52 Ha53) as (m1 & K & Ediv & _).
  unfold scale_side, truediv.
  replace (a =? 0) with false by (symmetry; apply Z.eqb_neq; lia).
  destruct (Z.eq_dec b 0) as [-> | Hb0].
  - rewrite Ediv. cbn. exists 0. rewrite Z.mul_0_r, Z.div_0_l, Zmod_0_l by lia.
    repeat split; lia.
  - assert (Hb53 : 0 < b < 2 ^ 53) by lia.
    destruct (scaled_dim_bounds s a b Hs52 Ha53 Hb53) as (h & Eh & Hh & G1 & G2).
    destruct (float_of_int_exact b Hb53) as (M & J & EM & _).
    rewrite Ediv in *. cbn [res_bind]. unfold mul_int. rewrite EM. cbn [res_bind].
    exists h. split; [apply to_int_of_float; assumption|].
    split; [assumption|].
    apply floor_of_bounds; lia.
Qed.

(** C8: a square bitmap is scaled to 240 by 240, whatever its side. *)
Theorem square_bitmap_240 (n : Z) : scaled_size n n = Val (240, 240).
Proof. unfold scaled_size. rewrite Z.eqb_refl. reflexivity. Qed.

(** C1, at the failing input: a 400 by 399 bitmap is scaled to 320 by 319,
    which is taller than the 240 rows of the screen. *)
Theorem landscape_400x399_overflows_screen :
  scaled_size 400 399 = Val (320, 319) /\ screen_height < 319.
Proof. split; [vm_compute; reflexivity | reflexivity]. Qed.

(** C2, at the failing input: on a 154 by 77 bitmap the scaler asks for a
    height of 159, where the floor of the exact 320 * 77 / 154 is 160; the
    400 by 200 bitmap of the same 2:1 shape does get 160. *)
Theorem height_154x77_one_below_exact_floor :
  scaled_size 154 77 = Val (320, 159) /\
  spec_scaled_size 154 77 = (320, 160) /\
  scaled_size 400 200 = Val (spec_scaled_size 400 200).
Proof. repeat split; vm_compute; reflexivity. Qed.

(** The two branches of the scaler on a non-square bitmap. *)
Lemma landscape_size (iw ih : Z) :
  0 <= ih < iw -> iw < dim_bound ->
  exists h, scaled_size iw ih = Val (320, h) /\
    0 <= h /\
    (320 * ih) / iw - 1 <= h <= (320 * ih) / iw /\
    ((320 * ih) mod iw <> 0 -> h = (320 * ih) / iw).
Proof.
  intros Hlt Hw. unfold scaled_size.
  replace (iw =? ih) with false by (symmetry; apply Z.eqb_neq; lia).
  replace (iw >? ih) with true by (symmetry; apply Z.gtb_lt; lia).
  cbn [negb].
  destruct (scale_side_floor screen_width iw ih) as (h & -> & H0 & Hb & Hm);
    try (unfold screen_width; lia).
  exists h. split; [reflexivity | repeat split; solve [assumption | apply Hb]].
Qed.

Lemma portrait_size (iw ih : Z) :
  0 <= iw < ih -> ih < dim_bound ->
  exists w, scaled_size iw ih = Val (w, 240) /\
    0 <= w /\
    (240 * iw) / ih - 1 <= w <= (240 * iw) / ih /\
    ((240 * iw) mod ih <> 0 -> w = (240 * iw) / ih).
Proof.
  intros Hlt Hh. unfold scaled_size.
  replace (iw =? ih) with false by (symmetry; apply Z.eqb_neq; lia).
  replace (iw >? ih) with false
    by (symmetry; rewrite Z.gtb_ltb; apply Z.ltb_ge; lia).
  cbn [negb].
  destruct (scale_side_floor screen_height ih iw) as (x & -> & H0 & Hb & Hm);
    try (unfold screen_height; lia).
  exists x. split; [reflexivity | repeat split; solve [assumption | apply Hb]].
Qed.

(** How far the double arithmetic can stray on a non-square bitmap: the
    side scaled to the screen is exact, the other one is the floor of the
    exact quotient, and one less than it only where the quotient is a whole
    number. *)
Lemma scaled_size_nonsquare (iw ih : Z) :
  0 <= iw < dim_bound -> 0 <= ih < dim_bound -> iw <> ih ->
  (ih < iw ->
   exists h, scaled_size iw ih = Val (320, h) /\
     (320 * ih) / iw - 1 <= h <= (320 * ih) / iw /\
     ((320 * ih) mod iw <> 0 -> h = (320 * ih) / iw)) /\
  (iw < ih ->
   exists w, scaled_size iw ih = Val (w, 240) /\
     (240 * iw) / ih - 1 <= w <= (240 * iw) / ih /\
     ((240 * iw) mod ih <> 0 -> w = (240 * iw) / ih)).
Proof.
  intros Hw Hh Hne. split; intros Hlt.
  - destruct (landscape_size iw ih) as (h & E & _ & Hb & Hm); try lia.
    exists h. auto.
  - destruct (portrait_size iw ih) as (w & E & _ & Hb & Hm); try lia.
    exists w. auto.
Qed.

(** C3, as stated, fails: a 3 by 2 bitmap is scaled to 320 by 213, and
    320 : 213 is not 3 : 2. *)
Lemma aspect_ratio_changes_3x2 :
  exists ow oh, scaled_size 3 2 = Val (ow, oh) /\ ow * 2 <> oh * 3.
Proof. exists 320, 213. split; [vm_compute; reflexivity | lia]. Qed.

(** C3, amended: a square bitmap keeps its aspect ratio exactly; on any
    other bitmap the longer side is scaled to the screen and the other side
    is never rounded up, and where its exact value is not a whole number of
    pixels it is that value truncated. *)
Theorem aspect_ratio_up_to_truncation (iw ih : Z) :
  0 < iw < dim_bound -> 0 < ih < dim_bound ->
  exists ow oh,
    scaled_size iw ih = Val (ow, oh) /\
    (iw = ih -> ow * ih = oh * iw) /\
    (ih < iw ->
     ow = 320 /\ oh * iw <= ow * ih /\
     ((320 * ih) mod iw <> 0 -> ow * ih < (oh + 1) * iw)) /\
    (iw < ih ->
     oh = 240 /\ ow * ih <= oh * iw /\
     ((240 * iw) mod ih <> 0 -> oh * iw < (ow + 1) * ih)).
Proof.
  intros Hw Hh.
  destruct (Z.lt_trichotomy iw ih) as [Hlt | [-> | Hgt]].
  - destruct (portrait_size iw ih) as (w & E & _ & Hb & Hm); try lia.
    exists w, 240.
    split; [assumption|]. split; [lia|]. split; [lia|].
    intros _. split; [reflexivity|].
    pose proof (Z.div_mod (240 * iw) ih ltac:(lia)) as Hdm.
    pose proof (Z.mod_pos_bound (240 * iw) ih ltac:(lia)) as Hr.
    split.
    + assert (w * ih <= (240 * iw) / ih * ih)
        by (apply Z.mul_le_mono_nonneg_r; lia).
      lia.
    + intros Hnd. rewrite (Hm Hnd). lia.
  - exists 240, 240. unfold scaled_size. rewrite Z.eqb_refl.
    split; [reflexivity|]. split; [lia|]. split; intros; lia.
  - destruct (landscape_size iw ih) as (h & E & _ & Hb & Hm); try lia.
    exists 320, h.
    split; [assumption|]. split; [lia|]. split; [|lia].
    intros _. split; [reflexivity|].
    pose proof (Z.div_mod (320 * ih) iw ltac:(lia)) as Hdm.
    pose proof (Z.mod_pos_bound (320 * ih) iw ltac:(lia)) as Hr.
    split.
    + assert (h * iw <= (320 * ih) / iw * iw)
        by (apply Z.mul_le_mono_nonneg_r; lia).
      lia.
    + intros Hnd. rewrite (Hm Hnd). lia.
Qed.

Lemma aspect_ratio_up_to_truncation_witness :
  exists ow oh,
    scaled_size 3 2 = Val (ow, oh) /\
    ow = 320 /\ oh * 3 <= ow * 2 /\ ow * 2 < (oh + 1) * 3.
Proof.
  destruct (aspect_ratio_up_to_truncation 3 2
              ltac:(unfold dim_bound; lia) ltac:(unfold dim_bound; lia))
    as (ow & oh & E & _ & L & _).
  exists ow, oh. split; [exact E|].
  destruct (L ltac:(lia)) as (Ew & Hle & Hlt).
  split; [exact Ew|]. split; [exact Hle|].
  apply Hlt. vm_compute. discriminate.
Defined.

(** C10: a bitmap more than 320 times as wide as it is high gets the target
    height 0; the scaler keeps no dimension at 1 pixel or more. *)
Theorem thin_bitmap_zero_height (iw ih : Z) :
  0 <= ih -> 320 * ih < iw -> iw < dim_bound ->
  scaled_size iw ih = Val (320, 0).
Proof.
  intros Hh Hthin Hw. unfold scaled_size.
  replace (iw =? ih) with false by (symmetry; apply Z.eqb_neq; lia).
  replace (iw >? ih) with true by (symmetry; apply Z.gtb_lt; lia).
  cbn [negb].
  destruct (scale_side_floor screen_width iw ih) as (h & -> & Hpos & Hb & _);
    try (unfold screen_width; lia).
  unfold screen_width in *. rewrite Z.div_small in Hb by lia.
  cbn [res_bind]. do 2 f_equal. lia.
Qed.

Lemma thin_bitmap_zero_height_witness : scaled_size 321 1 = Val (320, 0).
Proof. apply (thin_bitmap_zero_height 321 1); unfold dim_bound; lia. Defined.

End ScalerFacts.

(** ** The run *)

Module ProgramFacts.

(** *** Running the monad *)

Lemma bind_val {A B : Type} (m : M A) (k : A -> M B) (s s1 : State) (a : A) :
  m s = (Val a, s1) -> bind m k s = k a s1.
Proof. unfold bind. intros ->. reflexivity. Qed.

Lemma bind_exit {A B : Type} (m : M A) (k : A -> M B) (s s1 : State) (c : Z) :
  m s = (Exit c, s1) -> bind m k s = (Exit c, s1).
Proof. unfold bind. intros ->. reflexivity. Qed.

Lemma bind_raise {A B : Type} (m : M A) (k : A -> M B) (s s1 : State) (e : exn) :
  m s = (Raise e, s1) -> bind m k s = (Raise e, s1).
Proof. unfold bind. intros ->. reflexivity. Qed.

Lemma bind_val_inv {A B : Type} (m : M A) (k : A -> M B) (s s' : State) (b : B) :
  bind m k s = (Val b, s') ->
  exists a s1, m s = (Val a, s1) /\ k a s1 = (Val b, s').
Proof.
  unfold bind. destruct (m s) as [[a | c | e] s1]; intros H; try discriminate.
  exists a, s1. auto.
Qed.

Lemma after_after (s : State) (es es' : list Event) :
  after (after s es) es' = after s (es ++ es').
Proof. unfold after. cbn. rewrite <- app_assoc. reflexivity. Qed.

Lemma emit_after (e : Event) (s : State) : emit e s = (Val tt, after s [e]).
Proof. reflexivity. Qed.

Lemma requests_get_str (w : World) (u : string) (s : State) :
  requests_get w (PStr u) s = (http_get w u, after s [HttpGet (PStr u)]).
Proof. reflexivity. Qed.

Lemma check_status_ok (what : string) (r : Response) (s : State) :
  status_code r = 200 -> check_status what r s = (Val tt, s).
Proof. unfold check_status. intros ->. reflexivity. Qed.

Lemma check_status_fail (what : string) (r : Response) (s : State) :
  status_code r <> 200 ->
  check_status what r s =
    (Exit 1, after s [Print what; Print ("Response Code: " +:+ str_int (status_code r))]).
Proof.
  intros H. unfold check_status.
  replace (status_code r =? 200) with false by (symmetry; apply Z.eqb_neq; assumption).
  cbn [negb]. unfold print, sys_exit, lift.
  rewrite (bind_val _ _ _ _ _ (emit_after _ _)).
  rewrite (bind_val _ _ _ _ _ (emit_after _ _)).
  rewrite after_after. reflexivity.
Qed.

Lemma response_json_some (r : Response) (v : pyval) (s : State) :
  json_body r = Some v -> response_json r s = (Val v, after s [ParseJson]).
Proof. unfold response_json. intros ->. reflexivity. Qed.

(** C5: when the metadata request is answered with a status other than 200,
    the run prints the two diagnostic lines, the second with the status,
    and exits with code 1; it has issued that one request, parsed no JSON
    and written no file. *)
Theorem metadata_status_not_200 (w : World) (s : State) (r : Response) :
  http_get w (apod_api_url w) = Val r ->
  status_code r <> 200 ->
  main w s =
    (Exit 1,
     {| trace := trace s ++
          [HttpGet (PStr (apod_api_url w));
           Print "Error Contacting APOD API";
           Print ("Response Code: " +:+ str_int (status_code r))];
        fs := fs s |}).
Proof.
  intros Hget Hst. unfold main.
  rewrite (bind_val _ _ _ _ r) by (rewrite requests_get_str, Hget; reflexivity).
  rewrite (bind_exit _ _ _ _ 1 (check_status_fail _ _ _ Hst)).
  rewrite after_after. reflexivity.
Qed.

Lemma metadata_status_not_200_witness :
  main (Sample.world 404 200 "image" (400, 200)) Sample.start =
    (Exit 1,
     {| trace :=
          [HttpGet (PStr "https://api.nasa.gov/planetary/apod?api_key=DEMO_KEY&thumbs=True");
           Print "Error Contacting APOD API"; Print "Response Code: 404"];
        fs := fs Sample.start |}).
Proof.
  apply (metadata_status_not_200 (Sample.world 404 200 "image" (400, 200))
           Sample.start (Sample.meta_response 404 "image"));
    [reflexivity | discriminate].
Defined.

Lemma eq_str_true (t : string) : eq_str (PStr t) t = true.
Proof. apply String.eqb_refl. Qed.

Lemma eq_str_false (v : pyval) (t : string) : v <> PStr t -> eq_str v t = false.
Proof.
  intros H. destruct v; try reflexivity.
  apply String.eqb_neq. congruence.
Qed.

Lemma select_image_url_image (d : gmap string pyval) (u : pyval) (s : State) :
  d !! "media_type" = Some (PStr "image") -> d !! "url" = Some u ->
  select_image_url (PDict d) s = (Val u, s).
Proof.
  intros Hm Hu. unfold select_image_url, bind, lift, subscript.
  rewrite Hm. cbn. rewrite Hu. reflexivity.
Qed.

Lemma select_image_url_video (d : gmap string pyval) (u : pyval) (s : State) :
  d !! "media_type" = Some (PStr "video") -> d !! "thumbnail_url" = Some u ->
  select_image_url (PDict d) s = (Val u, s).
Proof.
  intros Hm Hu. unfold select_image_url, bind, lift, subscript.
  rewrite Hm. cbn. rewrite Hu. reflexivity.
Qed.

Lemma select_image_url_resolves (d : gmap string pyval) (u : pyval) (s : State) :
  resolves_to d u -> select_image_url (PDict d) s = (Val u, s).
Proof.
  intros [[Hm Hu] | [Hm Hu]];
    [apply select_image_url_image | apply select_image_url_video]; assumption.
Qed.

Lemma select_image_url_other (d : gmap string pyval) (v : pyval) (s : State) :
  d !! "media_type" = Some v -> v <> PStr "image" -> v <> PStr "video" ->
  select_image_url (PDict d) s =
    (Exit 1, after s [Print "Error Parsing APOD API JSON"]).
Proof.
  intros Hm Hi Hv. unfold select_image_url, bind, lift, subscript.
  rewrite Hm, (eq_str_false v "image" Hi), (eq_str_false v "video" Hv).
  reflexivity.
Qed.

(** C4: the asset URL is the [url] field when the media type is [image] and
    the [thumbnail_url] field when it is [video]; nothing is printed or
    requested while it is selected. *)
Theorem asset_url_by_media_type (d : gmap string pyval) (u : pyval) (s : State) :
  (d !! "media_type" = Some (PStr "image") -> d !! "url" = Some u ->
   select_image_url (PDict d) s = (Val u, s)) /\
  (d !! "media_type" = Some (PStr "video") -> d !! "thumbnail_url" = Some u ->
   select_image_url (PDict d) s = (Val u, s)).
Proof.
  split; intros Hm Hu.
  - apply select_image_url_image; assumption.
  - apply select_image_url_video; assumption.
Qed.

Lemma asset_url_by_media_type_witness :
  select_image_url (PDict (Sample.metadata "image")) Sample.start
    = (Val (PStr Sample.asset_url), Sample.start) /\
  select_image_url (PDict (Sample.metadata "video")) Sample.start
    = (Val (PStr Sample.asset_url), Sample.start).
Proof.
  split.
  - apply (proj1 (asset_url_by_media_type (Sample.metadata "image")
                    (PStr Sample.asset_url) Sample.start)); reflexivity.
  - apply (proj2 (asset_url_by_media_type (Sample.metadata "video")
                    (PStr Sample.asset_url) Sample.start)); reflexivity.
Defined.

(** C7: when the media type is neither [image] nor [video], the run prints
    one diagnostic line and exits with code 1; the asset is never
    requested. *)
Theorem unknown_media_type_exits (w : World) (s : State) (r : Response)
    (d : gmap string pyval) (v : pyval) :
  http_get w (apod_api_url w) = Val r ->
  status_code r = 200 ->
  json_body r = Some (PDict d) ->
  d !! "media_type" = Some v -> v <> PStr "image" -> v <> PStr "video" ->
  main w s =
    (Exit 1,
     {| trace := trace s ++
          [HttpGet (PStr (apod_api_url w)); ParseJson;
           Print "Error Parsing APOD API JSON"];
        fs := fs s |}).
Proof.
  intros Hget Hst Hjson Hm Hi Hv. unfold main.
  rewrite (bind_val _ _ _ _ r) by (rewrite requests_get_str, Hget; reflexivity).
  rewrite (bind_val _ _ _ _ tt (check_status_ok _ _ _ Hst)).
  rewrite (bind_val _ _ _ _ _ (response_json_some _ _ _ Hjson)).
  rewrite (bind_exit _ _ _ _ 1 (select_image_url_other _ _ _ Hm Hi Hv)).
  rewrite !after_after. reflexivity.
Qed.

Lemma unknown_media_type_exits_witness :
  main (Sample.world 200 200 "other" (400, 200)) Sample.start =
    (Exit 1,
     {| trace :=
          [HttpGet (PStr "https://api.nasa.gov/planetary/apod?api_key=DEMO_KEY&thumbs=True");
           ParseJson; Print "Error Parsing APOD API JSON"];
        fs := fs Sample.start |}).
Proof.
  apply (unknown_media_type_exits (Sample.world 200 200 "other" (400, 200))
           Sample.start (Sample.meta_response 200 "other")
           (Sample.metadata "other") (PStr "other"));
    solve [reflexivity | discriminate].
Defined.

(** C6: when the metadata is fetched and resolved but the asset request is
    answered with a status other than 200, the run prints the two
    diagnostic lines, the second with the status, and exits with code 1;
    the files are as they were. *)
Theorem asset_status_not_200 (w : World) (s : State) (r1 r2 : Response)
    (d : gmap string pyval) (u : string) :
  http_get w (apod_api_url w) = Val r1 ->
  status_code r1 = 200 ->
  json_body r1 = Some (PDict d) ->
  resolves_to d (PStr u) ->
  http_get w u = Val r2 ->
  status_code r2 <> 200 ->
  main w s =
    (Exit 1,
     {| trace := trace s ++
          [HttpGet (PStr (apod_api_url w)); ParseJson; HttpGet (PStr u);
           Print "Error Downloading APOD Image";
           Print ("Response Code: " +:+ str_int (status_code r2))];
        fs := fs s |}).
Proof.
  intros Hget Hst Hjson Hres Hget2 Hst2. unfold main.
  rewrite (bind_val _ _ _ _ r1) by (rewrite requests_get_str, Hget; reflexivity).
  rewrite (bind_val _ _ _ _ tt (check_status_ok _ _ _ Hst)).
  rewrite (bind_val _ _ _ _ _ (response_json_some _ _ _ Hjson)).
  rewrite (bind_val _ _ _ _ _ (select_image_url_resolves _ _ _ Hres)).
  rewrite (bind_val _ _ _ _ r2) by (rewrite requests_get_str, Hget2; reflexivity).
  rewrite (bind_exit _ _ _ _ 1 (check_status_fail _ _ _ Hst2)).
  rewrite !after_after. reflexivity.
Qed.

Lemma asset_status_not_200_witness :
  main (Sample.world 200 500 "image" (400, 200)) Sample.start =
    (Exit 1,
     {| trace :=
          [HttpGet (PStr "https://api.nasa.gov/planetary/apod?api_key=DEMO_KEY&thumbs=True");
           ParseJson; HttpGet (PStr "http://x/img.jpg");
           Print "Error Downloading APOD Image"; Print "Response Code: 500"];
        fs := fs Sample.start |}).
Proof.
  apply (asset_status_not_200 (Sample.world 200 500 "image" (400, 200))
           Sample.start (Sample.meta_response 200 "image")
           (Sample.asset_response 500) (Sample.metadata "image")
           Sample.asset_url);
    try reflexivity.
  - left. split; reflexivity.
  - discriminate.
Defined.

(** *** What a step that returns has done *)

Lemma requests_get_val (w : World) (url : pyval) (s s1 : State) (r : Response) :
  requests_get w url s = (Val r, s1) ->
  s1 = after s [HttpGet url] /\ exists u, url = PStr u /\ http_get w u = Val r.
Proof.
  unfold requests_get. rewrite (bind_val _ _ _ _ _ (emit_after _ _)).
  destruct url; unfold lift; intros H; inversion H; subst; try discriminate.
  split; [reflexivity | eauto].
Qed.

Lemma check_status_val (what : string) (r : Response) (s s1 : State) (x : unit) :
  check_status what r s = (Val x, s1) -> s1 = s /\ status_code r = 200.
Proof.
  destruct (Z.eq_dec (status_code r) 200) as [E | N].
  - rewrite (check_status_ok _ _ _ E). intros H. inversion H. auto.
  - rewrite (check_status_fail _ _ _ N). discriminate.
Qed.

Lemma response_json_val (r : Response) (s s1 : State) (v : pyval) :
  response_json r s = (Val v, s1) ->
  s1 = after s [ParseJson] /\ json_body r = Some v.
Proof.
  unfold response_json. rewrite (bind_val _ _ _ _ _ (emit_after _ _)).
  destruct (json_body r); unfold ret, lift; intros H; inversion H; auto.
Qed.

Lemma lift_val {A : Type} (r : res A) (s s1 : State) (a : A) :
  lift r s = (Val a, s1) -> s1 = s /\ r = Val a.
Proof. unfold lift. intros H. inversion H. auto. Qed.

Lemma select_image_url_val (j : pyval) (s s1 : State) (u : pyval) :
  select_image_url j s = (Val u, s1) ->
  s1 = s /\ exists d, j = PDict d /\ resolves_to d u.
Proof.
  unfold select_image_url, bind, lift, subscript, resolves_to.
  destruct j as [| | | | |l|d]; try discriminate.
  destruct (d !! "media_type") as [v|] eqn:Hm; try discriminate.
  destruct (eq_str v "image") eqn:Hi.
  - destruct v; try discriminate. apply String.eqb_eq in Hi. subst.
    destruct (d !! "url") as [x|] eqn:Hu; try discriminate.
    intros H. inversion H. subst. split; [reflexivity|]. exists d. auto.
  - destruct (eq_str v "video") eqn:Hv; [|discriminate].
    destruct v; try discriminate. apply String.eqb_eq in Hv. subst.
    destruct (d !! "thumbnail_url") as [x|] eqn:Hu; try discriminate.
    intros H. inversion H. subst. split; [reflexivity|]. exists d. auto.
Qed.

Lemma Image_open_val (w : World) (b : bytes) (s s1 : State) (im : Image) :
  Image_open w b s = (Val im, s1) ->
  s1 = after s [ImageOpen b] /\ image_open w b = Val im.
Proof.
  unfold Image_open. rewrite (bind_val _ _ _ _ _ (emit_after _ _)).
  intros H. apply lift_val in H. assumption.
Qed.

Lemma Image_resize_val (w : World) (im im' : Image) (sz : Z * Z)
    (f : Resampling) (s s1 : State) :
  Image_resize w im sz f s = (Val im', s1) ->
  s1 = after s [ImageResize sz f] /\
  im' = {| size := sz; pixels := resample w im sz f |}.
Proof.
  unfold Image_resize. rewrite (bind_val _ _ _ _ _ (emit_after _ _)).
  destruct (resize_error w im sz); unfold ret, lift; intros H; inversion H; auto.
Qed.

Lemma Image_save_val (w : World) (im : Image) (path format : string) (p : bool)
    (s s1 : State) (x : unit) :
  Image_save w im path format p s = (Val x, s1) ->
  s1 = {| trace := trace s ++ [ImageSave path format p];
          fs := <[path := JpegFile p im]> (fs s) |}.
Proof.
  unfold Image_save. rewrite (bind_val _ _ _ _ _ (emit_after _ _)).
  cbn. destruct (save_error w im path (fs s)) as [[e rest]|];
    intros H; inversion H; reflexivity.
Qed.

(** The whole of a run that returns. *)
Lemma main_val (w : World) (s s' : State) (x : unit) :
  main w s = (Val x, s') ->
  exists (r1 r2 : Response) (d : gmap string pyval) (u : string)
         (src : Image) (sz : Z * Z),
    http_get w (apod_api_url w) = Val r1 /\ status_code r1 = 200 /\
    json_body r1 = Some (PDict d) /\ resolves_to d (PStr u) /\
    http_get w u = Val r2 /\ status_code r2 = 200 /\
    image_open w (content r2) = Val src /\
    Scaler.scaled_size (fst (size src)) (snd (size src)) = Val sz /\
    s' = {| trace := trace s ++
              [HttpGet (PStr (apod_api_url w)); ParseJson; HttpGet (PStr u);
               ImageOpen (content r2); ImageResize sz LANCZOS;
               ImageSave output_path "JPEG" false];
            fs := <[output_path :=
                      JpegFile false
                        {| size := sz; pixels := resample w src sz LANCZOS |}]>
                    (fs s) |}.
Proof.
  unfold main. intros H.
  apply bind_val_inv in H as (r1 & s1 & H1 & H).
  apply requests_get_val in H1 as (-> & u0 & Eu0 & Hget1). inversion Eu0; subst u0.
  apply bind_val_inv in H as ([] & s2 & H2 & H).
  apply check_status_val in H2 as (-> & Hst1).
  apply bind_val_inv in H as (j & s3 & H3 & H).
  apply response_json_val in H3 as (-> & Hjson).
  apply bind_val_inv in H as (url & s4 & H4 & H).
  apply select_image_url_val in H4 as (-> & d & -> & Hres).
  apply bind_val_inv in H as (r2 & s5 & H5 & H).
  apply requests_get_val in H5 as (-> & u & -> & Hget2).
  apply bind_val_inv in H as ([] & s6 & H6 & H).
  apply check_status_val in H6 as (-> & Hst2).
  apply bind_val_inv in H as (src & s7 & H7 & H).
  apply Image_open_val in H7 as (-> & Hopen).
  apply bind_val_inv in H as (sz & s8 & H8 & H).
  apply lift_val in H8 as (-> & Hsz).
  apply bind_val_inv in H as (im & s9 & H9 & H).
  apply Image_resize_val in H9 as (-> & ->).
  apply Image_save_val in H. subst s'.
  exists r1, r2, d, u, src, sz.
  repeat (split; [assumption|]).
  rewrite !after_after. cbn. rewrite <- app_assoc. reflexivity.
Qed.

(** C9: a run that returns has fetched the metadata, downloaded the asset it
    names, decoded it, and saved that bitmap, resized to the size the scaler
    computed, as a JPEG with progressive encoding off at
    [../image/apod.jpg], replacing whatever was there; these six calls are
    all it did. *)
Theorem successful_run_saves_baseline_jpeg (w : World) (s s' : State) :
  main w s = (Val tt, s') ->
  exists (r1 r2 : Response) (d : gmap string pyval) (u : string)
         (src : Image) (sz : Z * Z),
    http_get w (apod_api_url w) = Val r1 /\
    json_body r1 = Some (PDict d) /\ resolves_to d (PStr u) /\
    http_get w u = Val r2 /\
    image_open w (content r2) = Val src /\
    Scaler.scaled_size (fst (size src)) (snd (size src)) = Val sz /\
    trace s' = trace s ++
      [HttpGet (PStr (apod_api_url w)); ParseJson; HttpGet (PStr u);
       ImageOpen (content r2); ImageResize sz LANCZOS;
       ImageSave "../image/apod.jpg" "JPEG" false] /\
    fs s' = <["../image/apod.jpg" :=
                JpegFile false
                  {| size := sz; pixels := resample w src sz LANCZOS |}]> (fs s) /\
    fs s' !! "../image/apod.jpg" =
      Some (JpegFile false {| size := sz; pixels := resample w src sz LANCZOS |}).
Proof.
  intros H.
  apply main_val in H
    as (r1 & r2 & d & u & src & sz & Hg & _ & Hj & Hres & Hg2 & _ & Ho & Hsz & ->).
  exists r1, r2, d, u, src, sz. cbn [trace fs].
  repeat (split; [assumption || reflexivity|]).
  apply lookup_insert_eq.
Qed.

Lemma successful_run_saves_baseline_jpeg_witness :
  exists (r1 r2 : Response) (d : gmap string pyval) (u : string)
         (src : Image) (sz : Z * Z),
    http_get (Sample.world 200 200 "image" (400, 200))
      (apod_api_url (Sample.world 200 200 "image" (400, 200))) = Val r1 /\
    json_body r1 = Some (PDict d) /\ resolves_to d (PStr u) /\
    http_get (Sample.world 200 200 "image" (400, 200)) u = Val r2 /\
    image_open (Sample.world 200 200 "image" (400, 200)) (content r2) = Val src /\
    Scaler.scaled_size (fst (size src)) (snd (size src)) = Val sz /\
    trace (snd (main (Sample.world 200 200 "image" (400, 200)) Sample.start))
      = trace Sample.start ++
        [HttpGet (PStr (apod_api_url (Sample.world 200 200 "image" (400, 200))));
         ParseJson; HttpGet (PStr u);
         ImageOpen (content r2); ImageResize sz LANCZOS;
         ImageSave "../image/apod.jpg" "JPEG" false] /\
    fs (snd (main (Sample.world 200 200 "image" (400, 200)) Sample.start))
      = <["../image/apod.jpg" :=
            JpegFile false
              {| size := sz;
                 pixels := resample (Sample.world 200 200 "image" (400, 200))
                             src sz LANCZOS |}]> (fs Sample.start) /\
    fs (snd (main (Sample.world 200 200 "image" (400, 200)) Sample.start))
      !! "../image/apod.jpg" =
      Some (JpegFile false
              {| size := sz;
                 pixels := resample (Sample.world 200 200 "image" (400, 200))
                             src sz LANCZOS |}).
Proof.
  apply (successful_run_saves_baseline_jpeg
           (Sample.world 200 200 "image" (400, 200)) Sample.start).
  vm_compute. reflexivity.
Defined.

End ProgramFacts.

(** ** The scaler on the whole range of sizes *)

Module ScalerRange.
Import Scaler ScalerFacts.

(** X1: a portrait or square bitmap always fits the screen: the height asked
    for is 240 and the width is at most 240. *)
Theorem portrait_or_square_fits (iw ih : Z) :
  0 <= iw <= ih -> ih < dim_bound ->
  exists w, scaled_size iw ih = Val (w, 240) /\ 0 <= w <= 240.
Proof.
  intros Hw Hh. destruct (Z.eq_dec iw ih) as [-> | Hne].
  - exists 240. unfold scaled_size. rewrite Z.eqb_refl. split; [reflexivity | lia].
  - destruct (portrait_size iw ih) as (w & E & H0 & Hb & _); try lia.
    exists w. split; [assumption|].
    assert ((240 * iw) / ih < 240) by (apply Z.div_lt_upper_bound; lia).
    lia.
Qed.

Lemma portrait_or_square_fits_witness :
  exists w, scaled_size 200 400 = Val (w, 240) /\ 0 <= w <= 240.
Proof. apply (portrait_or_square_fits 200 400); unfold dim_bound; lia. Defined.

(** X2: a landscape bitmap fits the screen when it is at least 4:3 wide, and
    is asked taller than the screen when 121 * width <= 160 * height. *)
Theorem landscape_fits_from_4_3 (iw ih : Z) :
  0 <= ih < iw -> iw < dim_bound ->
  exists h, scaled_size iw ih = Val (320, h) /\
    (4 * ih <= 3 * iw -> 0 <= h <= 240) /\
    (121 * iw <= 160 * ih -> 240 < h).
Proof.
  intros Hlt Hw.
  destruct (landscape_size iw ih) as (h & E & H0 & Hb & _); try lia.
  exists h. split; [assumption|]. split; intros Hr.
  - assert ((320 * ih) / iw < 241) by (apply Z.div_lt_upper_bound; lia). lia.
  - assert (242 <= (320 * ih) / iw) by (apply Z.div_le_lower_bound; lia). lia.
Qed.

Lemma landscape_fits_from_4_3_witness :
  exists h, scaled_size 400 300 = Val (320, h) /\
    (4 * 300 <= 3 * 400 -> 0 <= h <= 240) /\
    (121 * 400 <= 160 * 300 -> 240 < h).
Proof. apply (landscape_fits_from_4_3 400 300); unfold dim_bound; lia. Defined.

(** X3: on every size a decoder can report the scaler returns: no division
    by zero, no overflow; and it never asks for more than 320 by 319. *)
Theorem scaled_size_returns_bounded (iw ih : Z) :
  0 <= iw < dim_bound -> 0 <= ih < dim_bound ->
  exists w h, scaled_size iw ih = Val (w, h) /\ 0 <= w <= 320 /\ 0 <= h <= 319.
Proof.
  intros Hw Hh. destruct (Z.lt_trichotomy iw ih) as [Hlt | [-> | Hgt]].
  - destruct (portrait_size iw ih) as (w & E & H0 & Hb & _); try lia.
    exists w, 240. split; [assumption|].
    assert ((240 * iw) / ih < 240) by (apply Z.div_lt_upper_bound; lia). lia.
  - exists 240, 240. unfold scaled_size. rewrite Z.eqb_refl.
    split; [reflexivity | lia].
  - destruct (landscape_size iw ih) as (h & E & H0 & Hb & _); try lia.
    exists 320, h. split; [assumption|].
    assert ((320 * ih) / iw < 320) by (apply Z.div_lt_upper_bound; lia). lia.
Qed.

Lemma scaled_size_returns_bounded_witness :
  exists w h, scaled_size 400 399 = Val (w, h) /\ 0 <= w <= 320 /\ 0 <= h <= 319.
Proof. apply (scaled_size_returns_bounded 400 399); unfold dim_bound; lia. Defined.

(** X4: a bitmap more than 240 times as high as it is wide gets the target
    width 0. *)
Theorem thin_portrait_zero_width (iw ih : Z) :
  0 <= iw -> 240 * iw < ih -> ih < dim_bound ->
  scaled_size iw ih = Val (0, 240).
Proof.
  intros Hw Hthin Hh.
  destruct (portrait_size iw ih) as (w & E & H0 & Hb & _); try lia.
  rewrite Z.div_small in Hb by lia. rewrite E. do 2 f_equal. lia.
Qed.

Lemma thin_portrait_zero_width_witness : scaled_size 1 241 = Val (0, 240).
Proof. apply (thin_portrait_zero_width 1 241); unfold dim_bound; lia. Defined.

(** X5: both target sides are at least one pixel when the bitmap is at most
    160 times as wide as high and at most 120 times as high as wide. *)
Theorem moderate_bitmap_positive_size (iw ih : Z) :
  0 < iw < dim_bound -> 0 < ih < dim_bound ->
  iw <= 160 * ih -> ih <= 120 * iw ->
  exists w h, scaled_size iw ih = Val (w, h) /\ 1 <= w /\ 1 <= h.
Proof.
  intros Hw Hh Hwide Hhigh. destruct (Z.lt_trichotomy iw ih) as [Hlt | [-> | Hgt]].
  - destruct (portrait_size iw ih) as (w & E & H0 & Hb & _); try lia.
    exists w, 240. split; [assumption|].
    assert (2 <= (240 * iw) / ih) by (apply Z.div_le_lower_bound; lia). lia.
  - exists 240, 240. unfold scaled_size. rewrite Z.eqb_refl.
    split; [reflexivity | lia].
  - destruct (landscape_size iw ih) as (h & E & H0 & Hb & _); try lia.
    exists 320, h. split; [assumption|].
    assert (2 <= (320 * ih) / iw) by (apply Z.div_le_lower_bound; lia). lia.
Qed.

Lemma moderate_bitmap_positive_size_witness :
  exists w h, scaled_size 160 1 = Val (w, h) /\ 1 <= w /\ 1 <= h.
Proof. apply (moderate_bitmap_positive_size 160 1); unfold dim_bound; lia. Defined.

End ScalerRange.

(** ** Whole runs, whatever the world does *)

Module RunFacts.
Import ProgramFacts.

Lemma requests_get_run (w : World) (url : pyval) (s : State) :
  requests_get w url s =
    (match url with PStr u => http_get w u | _ => Raise RequestException end,
     after s [HttpGet url]).
Proof. destruct url; reflexivity. Qed.

Lemma check_status_run (what : string) (r : Response) (s : State) :
  check_status what r s =
    if status_code r =? 200 then (Val tt, s)
    else (Exit 1, after s [Print what;
                           Print ("Response Code: " +:+ str_int (status_code r))]).
Proof.
  destruct (Z.eqb_spec (status_code r) 200) as [E | N].
  - apply check_status_ok; assumption.
  - apply check_status_fail; assumption.
Qed.

Lemma response_json_run (r : Response) (s : State) :
  response_json r s =
    (match json_body r with Some v => Val v | None => Raise JSONDecodeError end,
     after s [ParseJson]).
Proof. unfold response_json. destruct (json_body r); reflexivity. Qed.

Lemma select_image_url_run (j : pyval) (s : State) :
  (exists u, select_image_url j s = (Val u, s)) \/
  select_image_url j s = (Exit 1, after s [Print "Error Parsing APOD API JSON"]) \/
  (exists e, select_image_url j s = (Raise e, s)).
Proof.
  unfold select_image_url, bind, lift, subscript.
  destruct j as [| | | | |l|d]; try (right; right; eexists; reflexivity).
  destruct (d !! "media_type") as [v|]; [|right; right; eexists; reflexivity].
  destruct (eq_str v "image").
  - destruct (d !! "url"); [left | right; right]; eexists; reflexivity.
  - destruct (eq_str v "video").
    + destruct (d !! "thumbnail_url"); [left | right; right]; eexists; reflexivity.
    + right; left. reflexivity.
Qed.

Lemma Image_open_run (w : World) (b : bytes) (s : State) :
  Image_open w b s = (image_open w b, after s [ImageOpen b]).
Proof. reflexivity. Qed.

Lemma Image_resize_run (w : World) (im : Image) (sz : Z * Z) (f : Resampling)
    (s : State) :
  Image_resize w im sz f s =
    (match resize_error w im sz with
     | Some e => Raise e
     | None => Val {| size := sz; pixels := resample w im sz f |}
     end, after s [ImageResize sz f]).
Proof. unfold Image_resize. destruct (resize_error w im sz); reflexivity. Qed.

Lemma Image_save_run (w : World) (im : Image) (path format : string) (p : bool)
    (s : State) :
  Image_save w im path format p s =
    match save_error w im path (fs s) with
    | Some (e, rest) =>
        (Raise e, {| trace := trace s ++ [ImageSave path format p]; fs := rest |})
    | None =>
        (Val tt, {| trace := trace s ++ [ImageSave path format p];
                    fs := <[path := JpegFile p im]> (fs s) |})
    end.
Proof.
  unfold Image_save. rewrite (bind_val _ _ _ _ _ (emit_after _ _)). cbn.
  destruct (save_error w im path (fs s)) as [[e rest]|]; reflexivity.
Qed.

(** Every way a run can go, one goal each. *)
Ltac run_cases w s :=
  unfold main;
  unfold bind at 1; rewrite requests_get_run;
  destruct (http_get w (apod_api_url w)) as [?r1 | ?c | ?e] eqn:?Hget1; cbv beta iota;
  [ unfold bind at 1; rewrite check_status_run;
    destruct (Z.eqb_spec (status_code r1) 200) as [?Hst1 | ?Hst1]; cbv beta iota;
    [ unfold bind at 1; rewrite response_json_run;
      destruct (json_body r1) as [?j|] eqn:?Hjson; cbv beta iota;
      [ unfold bind at 1;
        destruct (select_image_url_run j (after (after s [HttpGet (PStr (apod_api_url w))]) [ParseJson]))
          as [[?url ?Hsel] | [?Hsel | [?e ?Hsel]]]; rewrite Hsel; cbv beta iota;
        [ unfold bind at 1; rewrite requests_get_run;
          destruct url as [| | | | ?u | |]; cbv beta iota;
          [ | | | |
            destruct (http_get w u) as [?r2 | ?c | ?e] eqn:?Hget2; cbv beta iota;
            [ unfold bind at 1; rewrite check_status_run;
              destruct (Z.eqb_spec (status_code r2) 200) as [?Hst2 | ?Hst2]; cbv beta iota;
              [ unfold bind at 1; rewrite Image_open_run;
                destruct (image_open w (content r2)) as [?src | ?c | ?e] eqn:?Hopen; cbv beta iota;
                [ unfold bind at 1; unfold lift at 1;
                  destruct (Scaler.scaled_size (fst (size src)) (snd (size src)))
                    as [?sz | ?c | ?e] eqn:?Hsz; cbv beta iota;
                  [ unfold bind at 1; rewrite Image_resize_run;
                    destruct (resize_error w src sz) as [?e|] eqn:?Hresize; cbv beta iota;
                    [ | rewrite Image_save_run; cbn [fs after];
                        destruct (save_error w _ output_path (fs s)) as [[?e ?rest]|] eqn:?Hsave ]
                  | | ]
                | | ]
              | ]
            | | ]
          | | ]
        | | ]
      | ]
    | ]
  | | ];
  rewrite ?after_after; cbn [after trace fs]; rewrite <- ?app_assoc; cbn [app].

Lemma res_bind_never_exits {A B : Type} (r : res A) (k : A -> res B) :
  (forall c, r <> Exit c) -> (forall a c, k a <> Exit c) ->
  forall c, res_bind r k <> Exit c.
Proof.
  intros Hr Hk c. destruct r as [a | c' | e]; cbn;
    [apply Hk | exfalso; apply (Hr c'); reflexivity | discriminate].
Qed.

Lemma scale_side_never_exits (x a b c : Z) : Scaler.scale_side x a b <> Exit c.
Proof.
  unfold Scaler.scale_side. apply res_bind_never_exits.
  - intros c'. unfold Scaler.truediv.
    destruct (a =? 0); [discriminate|].
    destruct (Binary64.int_truediv x a); discriminate.
  - intros q c'. apply res_bind_never_exits.
    + intros c''. unfold Scaler.mul_int.
      destruct (Binary64.float_of_int b); discriminate.
    + intros p c''. unfold Scaler.to_int.
      destruct p; cbn; discriminate.
Qed.

Lemma scaled_size_never_exits (iw ih c : Z) : Scaler.scaled_size iw ih <> Exit c.
Proof.
  unfold Scaler.scaled_size.
  destruct (negb (iw =? ih)); [|discriminate].
  destruct (iw >? ih); apply res_bind_never_exits;
    solve [intros; apply scale_side_never_exits | discriminate].
Qed.

(** X6: when the process leaves through [sys.exit] the code is 1, the last
    thing it did was print, and the files are as they were. *)
Theorem exit_is_code_1_after_print (w : World) (s s' : State) (c : Z) :
  library_never_exits w ->
  main w s = (Exit c, s') ->
  c = 1 /\ fs s' = fs s /\
  exists es line, trace s' = trace s ++ es ++ [Print line].
Proof.
  intros [Hh Hi]. run_cases w s; intros H; inversion H; subst; clear H;
    try (exfalso; eapply Hh; eassumption);
    try (exfalso; eapply Hi; eassumption);
    try (exfalso; eapply scaled_size_never_exits; eassumption).
  all: cbn [trace fs after]; split; [reflexivity|]; split; [reflexivity|].
  - exists [HttpGet (PStr (apod_api_url w)); ParseJson; HttpGet (PStr u);
            Print "Error Downloading APOD Image"]. eexists. reflexivity.
  - exists [HttpGet (PStr (apod_api_url w)); ParseJson]. eexists. reflexivity.
  - exists [HttpGet (PStr (apod_api_url w)); Print "Error Contacting APOD API"].
    eexists. reflexivity.
Qed.

Lemma exit_is_code_1_after_print_witness :
  1 = 1 /\
  fs (snd (main (Sample.world 404 200 "image" (400, 200)) Sample.start))
    = fs Sample.start /\
  exists es line,
    trace (snd (main (Sample.world 404 200 "image" (400, 200)) Sample.start))
      = trace Sample.start ++ es ++ [Print line].
Proof.
  apply (exit_is_code_1_after_print (Sample.world 404 200 "image" (400, 200))
           Sample.start).
  - split; intros x c; cbn; [destruct (String.eqb x Sample.asset_url)|]; discriminate.
  - vm_compute. reflexivity.
Defined.

(** X7: nothing is printed in a run that does not end in [sys.exit]: the
    uncaught errors and the success are silent on the standard output. *)
Theorem prints_only_before_exit (w : World) (s s' : State) (r : res unit) :
  main w s = (r, s') -> (forall c, r <> Exit c) ->
  exists es, trace s' = trace s ++ es /\ existsb is_print es = false.
Proof.
  run_cases w s; intros H Hne; inversion H; subst; clear H;
    try (exfalso; eapply Hne; reflexivity);
    cbn [trace after]; eexists; split; reflexivity.
Qed.

Lemma prints_only_before_exit_witness :
  exists es,
    trace (snd (main (Sample.world 200 200 "image" (400, 200)) Sample.start))
      = trace Sample.start ++ es /\ existsb is_print es = false.
Proof.
  apply (prints_only_before_exit (Sample.world 200 200 "image" (400, 200))
           Sample.start _ (Val tt)).
  - vm_compute. reflexivity.
  - discriminate.
Defined.

(** X8: every run starts with the metadata request and issues at most one
    more request after it. *)
Theorem at_most_two_requests (w : World) (s : State) :
  exists es,
    trace (snd (main w s)) = trace s ++ HttpGet (PStr (apod_api_url w)) :: es /\
    (length (List.filter is_request es) <= 1)%nat.
Proof.
  run_cases w s; cbn [snd trace after]; eexists; split;
    solve [reflexivity | cbn; lia].
Qed.

(** X9: the files change only in a run that reaches the save call; the only
    save ever asked for is a JPEG at [../image/apod.jpg] with progressive
    encoding off, and the only resize filter is LANCZOS. *)
Theorem files_change_only_by_save (w : World) (s : State) :
  exists es,
    trace (snd (main w s)) = trace s ++ es /\
    (existsb is_save es = false -> fs (snd (main w s)) = fs s) /\
    (forall e, In e es -> is_save e = true ->
               e = ImageSave "../image/apod.jpg" "JPEG" false) /\
    (forall sz f, In (ImageResize sz f) es -> f = LANCZOS).
Proof.
  destruct (main w s) as [r s'] eqn:H; revert H.
  run_cases w s; intros H; inversion H; subst; clear H;
    cbn [snd trace fs after]; eexists;
    (split; [reflexivity|]);
    (split; [intros Hns; first [reflexivity | cbn in Hns; discriminate]|]);
    (split; [intros ev Hin Hsv | intros sz' f Hin]);
    cbn in Hin; intuition (subst; try discriminate; try reflexivity; congruence).
Qed.

(** X10: the process status is 0 after a run that returns and 1 in every
    other case. *)
Theorem exit_status_0_or_1 (w : World) (s : State) :
  library_never_exits w ->
  (fst (main w s) = Val tt /\ exit_code (fst (main w s)) = 0) \/
  (fst (main w s) <> Val tt /\ exit_code (fst (main w s)) = 1).
Proof.
  intros [Hh Hi]. destruct (main w s) as [r s'] eqn:H; revert H.
  run_cases w s; intros H; inversion H; subst; clear H; cbn [fst exit_code];
    try (right; split; [discriminate | reflexivity]);
    try (left; split; reflexivity);
    try (exfalso; eapply Hh; eassumption);
    try (exfalso; eapply Hi; eassumption);
    try (exfalso; eapply scaled_size_never_exits; eassumption).
Qed.

Lemma exit_status_0_or_1_witness :
  (fst (main (Sample.world 200 200 "image" (400, 200)) Sample.start) = Val tt /\
   exit_code (fst (main (Sample.world 200 200 "image" (400, 200)) Sample.start)) = 0) \/
  (fst (main (Sample.world 200 200 "image" (400, 200)) Sample.start) <> Val tt /\
   exit_code (fst (main (Sample.world 200 200 "image" (400, 200)) Sample.start)) = 1).
Proof.
  apply (exit_status_0_or_1 (Sample.world 200 200 "image" (400, 200)) Sample.start).
  split; intros x c; cbn; [destruct (String.eqb x Sample.asset_url)|]; discriminate.
Defined.

(** *** The uncaught errors, one by one *)

Lemma run_to_json (w : World) (s : State) (r : Response) (j : pyval)
    (k : pyval -> M unit) :
  http_get w (apod_api_url w) = Val r -> status_code r = 200 ->
  json_body r = Some j ->
  main w s =
    bind (select_image_url j) (fun apod_image_url =>
      let* response := requests_get w apod_image_url in
      check_status "Error Downloading APOD Image" response >>
      let* image := Image_open w (content response) in
      let* scaled := lift (Scaler.scaled_size (fst (size image)) (snd (size image))) in
      let* image := Image_resize w image scaled LANCZOS in
      Image_save w image output_path "JPEG" false)
    (after s [HttpGet (PStr (apod_api_url w)); ParseJson]).
Proof.
  intros Hget Hst Hjson. unfold main.
  rewrite (bind_val _ _ _ _ r) by (rewrite requests_get_str, Hget; reflexivity).
  rewrite (bind_val _ _ _ _ tt (check_status_ok _ _ _ Hst)).
  rewrite (bind_val _ _ _ _ _ (response_json_some _ _ _ Hjson)).
  rewrite after_after. reflexivity.
Qed.

(** X11: a metadata object without [media_type] ends the run with an
    uncaught [KeyError]: nothing is printed, the asset is not requested and
    the files are as they were. *)
Theorem missing_media_type_raises (w : World) (s : State) (r : Response)
    (d : gmap string pyval) :
  http_get w (apod_api_url w) = Val r -> status_code r = 200 ->
  json_body r = Some (PDict d) ->
  d !! "media_type" = None ->
  main w s =
    (Raise (KeyError "media_type"),
     {| trace := trace s ++ [HttpGet (PStr (apod_api_url w)); ParseJson];
        fs := fs s |}).
Proof.
  intros Hget Hst Hjson Hm.
  rewrite (run_to_json w s r (PDict d) (fun _ => ret tt) Hget Hst Hjson).
  unfold bind at 1. unfold select_image_url, bind, lift, subscript.
  rewrite Hm. reflexivity.
Qed.

Lemma missing_media_type_raises_witness :
  main (Faulty.json_world (Some (PDict ∅))) Sample.start =
    (Raise (KeyError "media_type"),
     {| trace := [HttpGet (PStr Faulty.api_url); ParseJson];
        fs := fs Sample.start |}).
Proof.
  apply (missing_media_type_raises (Faulty.json_world (Some (PDict ∅)))
           Sample.start
           {| status_code := 200; content := []; json_body := Some (PDict ∅) |} ∅);
    reflexivity.
Defined.

(** X12: an [image] entry without [url], or a [video] entry without
    [thumbnail_url], ends the run with an uncaught [KeyError] for that field
    before any asset request. *)
Theorem missing_url_field_raises (w : World) (s : State) (r : Response)
    (d : gmap string pyval) :
  http_get w (apod_api_url w) = Val r -> status_code r = 200 ->
  json_body r = Some (PDict d) ->
  (d !! "media_type" = Some (PStr "image") -> d !! "url" = None ->
   main w s =
     (Raise (KeyError "url"),
      {| trace := trace s ++ [HttpGet (PStr (apod_api_url w)); ParseJson];
         fs := fs s |})) /\
  (d !! "media_type" = Some (PStr "video") -> d !! "thumbnail_url" = None ->
   main w s =
     (Raise (KeyError "thumbnail_url"),
      {| trace := trace s ++ [HttpGet (PStr (apod_api_url w)); ParseJson];
         fs := fs s |})).
Proof.
  intros Hget Hst Hjson.
  rewrite (run_to_json w s r (PDict d) (fun _ => ret tt) Hget Hst Hjson).
  split; intros Hm Hu; unfold bind at 1;
    unfold select_image_url, bind, lift, subscript; rewrite Hm; cbn;
    rewrite Hu; reflexivity.
Qed.

Lemma missing_url_field_raises_witness :
  main (Faulty.json_world (Some (PDict {[ "media_type" := PStr "video" ]}))) Sample.start =
    (Raise (KeyError "thumbnail_url"),
     {| trace := [HttpGet (PStr Faulty.api_url); ParseJson];
        fs := fs Sample.start |}).
Proof.
  apply (proj2 (missing_url_field_raises
           (Faulty.json_world (Some (PDict {[ "media_type" := PStr "video" ]})))
           Sample.start
           {| status_code := 200; content := [];
              json_body := Some (PDict {[ "media_type" := PStr "video" ]}) |}
           {[ "media_type" := PStr "video" ]}
           eq_refl eq_refl eq_refl)); reflexivity.
Defined.

(** X13: a JSON body that is not an object (a list, a string, a number,
    [null]) ends the run with an uncaught [TypeError]. *)
Theorem non_object_json_raises (w : World) (s : State) (r : Response) (j : pyval) :
  http_get w (apod_api_url w) = Val r -> status_code r = 200 ->
  json_body r = Some j -> (forall d, j <> PDict d) ->
  main w s =
    (Raise TypeError,
     {| trace := trace s ++ [HttpGet (PStr (apod_api_url w)); ParseJson];
        fs := fs s |}).
Proof.
  intros Hget Hst Hjson Hnd.
  rewrite (run_to_json w s r j (fun _ => ret tt) Hget Hst Hjson).
  unfold bind at 1. unfold select_image_url, bind, lift, subscript.
  destruct j; try reflexivity. exfalso. eapply Hnd. reflexivity.
Qed.

Lemma non_object_json_raises_witness :
  main (Faulty.json_world (Some (PList []))) Sample.start =
    (Raise TypeError,
     {| trace := [HttpGet (PStr Faulty.api_url); ParseJson];
        fs := fs Sample.start |}).
Proof.
  apply (non_object_json_raises (Faulty.json_world (Some (PList [])))
           Sample.start
           {| status_code := 200; content := []; json_body := Some (PList []) |}
           (PList [])); try reflexivity.
  discriminate.
Defined.

(** X14: a body with status 200 that is not JSON ends the run with the
    decoder's error right after the parse attempt. *)
Theorem undecodable_json_raises (w : World) (s : State) (r : Response) :
  http_get w (apod_api_url w) = Val r -> status_code r = 200 ->
  json_body r = None ->
  main w s =
    (Raise JSONDecodeError,
     {| trace := trace s ++ [HttpGet (PStr (apod_api_url w)); ParseJson];
        fs := fs s |}).
Proof.
  intros Hget Hst Hjson. unfold main.
  rewrite (bind_val _ _ _ _ r) by (rewrite requests_get_str, Hget; reflexivity).
  rewrite (bind_val _ _ _ _ tt (check_status_ok _ _ _ Hst)).
  rewrite (bind_raise _ _ _ (after (after s [HttpGet (PStr (apod_api_url w))]) [ParseJson])
             JSONDecodeError)
    by (rewrite response_json_run, Hjson; reflexivity).
  rewrite after_after. reflexivity.
Qed.

Lemma undecodable_json_raises_witness :
  main (Faulty.json_world (None)) Sample.start =
    (Raise JSONDecodeError,
     {| trace := [HttpGet (PStr Faulty.api_url); ParseJson];
        fs := fs Sample.start |}).
Proof.
  apply (undecodable_json_raises (Faulty.json_world None) Sample.start
           {| status_code := 200; content := []; json_body := None |});
    reflexivity.
Defined.

(** X15: an unset [APOD_API_KEY] is not checked: the request goes out all
    the same, with the text [None] in the place of the key. *)
Theorem unset_key_is_requested_as_None (w : World) (s : State) :
  getenv w "APOD_API_KEY" = None ->
  exists es,
    trace (snd (main w s)) =
      trace s ++
      HttpGet (PStr "https://api.nasa.gov/planetary/apod?api_key=None&thumbs=True")
        :: es.
Proof.
  intros Hkey.
  assert (E : apod_api_url w
              = "https://api.nasa.gov/planetary/apod?api_key=None&thumbs=True")
    by (unfold apod_api_url; rewrite Hkey; reflexivity).
  rewrite <- E. run_cases w s; cbn [snd trace]; eexists; reflexivity.
Qed.

Lemma unset_key_is_requested_as_None_witness :
  exists es,
    trace (snd (main (Faulty.json_world None) Sample.start)) =
      trace Sample.start ++
      HttpGet (PStr "https://api.nasa.gov/planetary/apod?api_key=None&thumbs=True")
        :: es.
Proof.
  apply (unset_key_is_requested_as_None (Faulty.json_world None) Sample.start).
  reflexivity.
Defined.

(** *** After the asset URL is resolved *)

Lemma run_to_asset (w : World) (s : State) (r : Response)
    (d : gmap string pyval) (url : pyval) :
  http_get w (apod_api_url w) = Val r -> status_code r = 200 ->
  json_body r = Some (PDict d) -> resolves_to d url ->
  main w s =
    bind (requests_get w url) (fun response =>
      check_status "Error Downloading APOD Image" response >>
      let* image := Image_open w (content response) in
      let* scaled := lift (Scaler.scaled_size (fst (size image)) (snd (size image))) in
      let* image := Image_resize w image scaled LANCZOS in
      Image_save w image output_path "JPEG" false)
    (after s [HttpGet (PStr (apod_api_url w)); ParseJson]).
Proof.
  intros Hget Hst Hjson Hres.
  rewrite (run_to_json w s r (PDict d) (fun _ => ret tt) Hget Hst Hjson).
  rewrite (bind_val _ _ _ _ _ (select_image_url_resolves _ _ _ Hres)).
  reflexivity.
Qed.

Lemma run_to_image (w : World) (s : State) (r1 r2 : Response)
    (d : gmap string pyval) (u : string) :
  http_get w (apod_api_url w) = Val r1 -> status_code r1 = 200 ->
  json_body r1 = Some (PDict d) -> resolves_to d (PStr u) ->
  http_get w u = Val r2 -> status_code r2 = 200 ->
  main w s =
    bind (Image_open w (content r2)) (fun image =>
      let* scaled := lift (Scaler.scaled_size (fst (size image)) (snd (size image))) in
      let* image := Image_resize w image scaled LANCZOS in
      Image_save w image output_path "JPEG" false)
    (after s [HttpGet (PStr (apod_api_url w)); ParseJson; HttpGet (PStr u)]).
Proof.
  intros Hget Hst Hjson Hres Hget2 Hst2.
  rewrite (run_to_asset w s r1 d (PStr u) Hget Hst Hjson Hres).
  rewrite (bind_val _ _ _ _ r2) by (rewrite requests_get_str, Hget2; reflexivity).
  rewrite (bind_val _ _ _ _ tt (check_status_ok _ _ _ Hst2)).
  rewrite after_after. reflexivity.
Qed.


(** X16: a resolved asset URL that is not a string (a [null], a number) is
    handed to [requests.get] as it is and ends the run there with the
    library's error; no status is checked and nothing is printed. *)
Theorem non_string_asset_url_raises (w : World) (s : State) (r : Response)
    (d : gmap string pyval) (url : pyval) :
  http_get w (apod_api_url w) = Val r -> status_code r = 200 ->
  json_body r = Some (PDict d) -> resolves_to d url ->
  (forall u, url <> PStr u) ->
  main w s =
    (Raise RequestException,
     {| trace := trace s ++ [HttpGet (PStr (apod_api_url w)); ParseJson; HttpGet url];
        fs := fs s |}).
Proof.
  intros Hget Hst Hjson Hres Hns.
  rewrite (run_to_asset w s r d url Hget Hst Hjson Hres).
  unfold bind at 1. rewrite requests_get_run, after_after.
  destruct url; try reflexivity. exfalso. eapply Hns. reflexivity.
Qed.

Lemma non_string_asset_url_raises_witness :
  main (Faulty.json_world
          (Some (PDict {[ "media_type" := PStr "video"; "thumbnail_url" := PNone ]})))
       Sample.start =
    (Raise RequestException,
     {| trace := [HttpGet (PStr Faulty.api_url); ParseJson; HttpGet PNone];
        fs := fs Sample.start |}).
Proof.
  apply (non_string_asset_url_raises
           (Faulty.json_world
              (Some (PDict {[ "media_type" := PStr "video"; "thumbnail_url" := PNone ]})))
           Sample.start
           {| status_code := 200; content := [];
              json_body := Some (PDict {[ "media_type" := PStr "video";
                                          "thumbnail_url" := PNone ]}) |}
           {[ "media_type" := PStr "video"; "thumbnail_url" := PNone ]} PNone);
    try reflexivity.
  - right. split; reflexivity.
  - discriminate.
Defined.

(** X17: when the downloaded bytes do not decode, the decoder's error ends
    the run: no resize, no save, the files as they were. *)
Theorem decode_failure_raises (w : World) (s : State) (r1 r2 : Response)
    (d : gmap string pyval) (u : string) (e : exn) :
  http_get w (apod_api_url w) = Val r1 -> status_code r1 = 200 ->
  json_body r1 = Some (PDict d) -> resolves_to d (PStr u) ->
  http_get w u = Val r2 -> status_code r2 = 200 ->
  image_open w (content r2) = Raise e ->
  main w s =
    (Raise e,
     {| trace := trace s ++
          [HttpGet (PStr (apod_api_url w)); ParseJson; HttpGet (PStr u);
           ImageOpen (content r2)];
        fs := fs s |}).
Proof.
  intros Hget Hst Hjson Hres Hget2 Hst2 Hopen.
  rewrite (run_to_image w s r1 r2 d u Hget Hst Hjson Hres Hget2 Hst2).
  unfold bind at 1. rewrite Image_open_run, Hopen, after_after. reflexivity.
Qed.

Lemma decode_failure_raises_witness :
  main (Faulty.pillow_world (400, 200) true false) Sample.start =
    (Raise ImageError,
     {| trace :=
          [HttpGet (PStr "https://api.nasa.gov/planetary/apod?api_key=DEMO_KEY&thumbs=True");
           ParseJson; HttpGet (PStr "http://x/img.jpg");
           ImageOpen (content (Sample.asset_response 200))];
        fs := fs Sample.start |}).
Proof.
  apply (decode_failure_raises (Faulty.pillow_world (400, 200) true false)
           Sample.start (Sample.meta_response 200 "image")
           (Sample.asset_response 200) (Sample.metadata "image")
           Sample.asset_url ImageError);
    try reflexivity.
  left. split; reflexivity.
Defined.

(** X18: when Pillow refuses the resize, the run ends with its error after
    asking for exactly the size the scaler computed, and no file is
    written. *)
Theorem resize_failure_raises (w : World) (s : State) (r1 r2 : Response)
    (d : gmap string pyval) (u : string) (src : Image) (sz : Z * Z) (e : exn) :
  http_get w (apod_api_url w) = Val r1 -> status_code r1 = 200 ->
  json_body r1 = Some (PDict d) -> resolves_to d (PStr u) ->
  http_get w u = Val r2 -> status_code r2 = 200 ->
  image_open w (content r2) = Val src ->
  Scaler.scaled_size (fst (size src)) (snd (size src)) = Val sz ->
  resize_error w src sz = Some e ->
  main w s =
    (Raise e,
     {| trace := trace s ++
          [HttpGet (PStr (apod_api_url w)); ParseJson; HttpGet (PStr u);
           ImageOpen (content r2); ImageResize sz LANCZOS];
        fs := fs s |}).
Proof.
  intros Hget Hst Hjson Hres Hget2 Hst2 Hopen Hsz Hrs.
  rewrite (run_to_image w s r1 r2 d u Hget Hst Hjson Hres Hget2 Hst2).
  unfold bind at 1. rewrite Image_open_run, Hopen. cbv beta iota.
  unfold bind at 1. unfold lift at 1. rewrite Hsz. cbv beta iota.
  unfold bind at 1. rewrite Image_resize_run, Hrs, !after_after. reflexivity.
Qed.

Lemma resize_failure_raises_witness :
  main (Faulty.pillow_world (400, 1) false true) Sample.start =
    (Raise ValueError,
     {| trace :=
          [HttpGet (PStr "https://api.nasa.gov/planetary/apod?api_key=DEMO_KEY&thumbs=True");
           ParseJson; HttpGet (PStr "http://x/img.jpg");
           ImageOpen (content (Sample.asset_response 200));
           ImageResize (320, 0) LANCZOS];
        fs := fs Sample.start |}).
Proof.
  apply (resize_failure_raises (Faulty.pillow_world (400, 1) false true)
           Sample.start (Sample.meta_response 200 "image")
           (Sample.asset_response 200) (Sample.metadata "image")
           Sample.asset_url
           {| size := (400, 1); pixels := content (Sample.asset_response 200) |}
           (320, 0) ValueError);
    try reflexivity.
  left. split; reflexivity.
Defined.



(** X20: running the script again on the files a successful run left changes
    nothing: the second run, if it returns too, writes the same file over
    the first. *)
Theorem second_run_rewrites_same_file (w : World) (s s1 s2 : State) :
  main w s = (Val tt, s1) -> main w s1 = (Val tt, s2) -> fs s2 = fs s1.
Proof.
  intros H1 H2.
  apply main_val in H1
    as (r1 & r2 & d & u & src & sz & Hg & _ & Hj & Hres & Hg2 & _ & Ho & Hsz & ->).
  apply main_val in H2
    as (r1' & r2' & d' & u' & src' & sz' & Hg' & _ & Hj' & Hres' & Hg2' & _ & Ho' & Hsz' & ->).
  cbn [fs].
  rewrite Hg in Hg'. inversion Hg'; subst r1'.
  rewrite Hj in Hj'. inversion Hj'; subst d'.
  assert (u' = u).
  { destruct Hres as [[Hm Hu] | [Hm Hu]], Hres' as [[Hm' Hu'] | [Hm' Hu']];
      congruence. }
  subst u'. rewrite Hg2 in Hg2'. inversion Hg2'; subst r2'.
  rewrite Ho in Ho'. inversion Ho'; subst src'.
  rewrite Hsz in Hsz'. inversion Hsz'; subst sz'.
  apply insert_insert_eq.
Qed.

Lemma second_run_rewrites_same_file_witness :
  fs (snd (main (Sample.world 200 200 "image" (400, 200))
             (snd (main (Sample.world 200 200 "image" (400, 200)) Sample.start))))
  = fs (snd (main (Sample.world 200 200 "image" (400, 200)) Sample.start)).
Proof.
  apply (second_run_rewrites_same_file (Sample.world 200 200 "image" (400, 200))
           Sample.start); vm_compute; reflexivity.
Defined.

End RunFacts.
